(** * Sharkey enrollment API: a shallow embedding of pkg/server/api/enroll.go

    The development follows the source file top to bottom: the Go string
    helpers it calls, the configuration it reads, the collaborators it
    talks to (storage, randomness, the CA signer, the HTTP response), the
    handlers themselves, and then the properties of the issuance pipeline. *)

From Stdlib Require Import ZArith Lia.
From stdpp Require Import gmap strings list fin_maps pretty.

Local Open Scope Z_scope.

(** ** Go values *)

(** A Go [error] that is not nil is identified with its [Error()] text;
    a Go pair [(v, err)] is a [result]. *)
Inductive result (A : Type) : Type :=
| Ok (a : A)
| Err (msg : string).
Arguments Ok {A} a.
Arguments Err {A} msg.

(** The line feed that [fmt.Fprintln] appends. *)
Definition newline : string := String (Ascii.ascii_of_nat 10) EmptyString.

(** [uint64(x)] for an [int64] (or wider) [x]: reduction modulo 2^64. *)
Definition uint64 (x : Z) : Z := x mod 2 ^ 64.

(** ** package strings *)
Module strings.

(** [s[i:j]] for [i <= j <= len(s)]. *)
Definition slice (s : string) (i j : nat) : string :=
  String.substring i (j - i) s.

(** [func HasSuffix(s, suffix string) bool {
      return len(s) >= len(suffix) && s[len(s)-len(suffix):] == suffix }] *)
Definition HasSuffix (s suffix : string) : bool :=
  (String.length suffix <=? String.length s)%nat
  && bool_decide (slice s (String.length s - String.length suffix)
                          (String.length s) = suffix).

(** [func TrimSuffix(s, suffix string) string {
      if HasSuffix(s, suffix) { return s[:len(s)-len(suffix)] }
      return s }] *)
Definition TrimSuffix (s suffix : string) : string :=
  if HasSuffix s suffix
  then slice s 0 (String.length s - String.length suffix)
  else s.

End strings.

(** ** package ssh: certificate types and permissions *)
Module ssh.

(** [const ( UserCert = 1; HostCert = 2 )], of type [uint32]. *)
Definition UserCert : Z := 1.
Definition HostCert : Z := 2.

(** [type Permissions struct { CriticalOptions, Extensions map[string]string }];
    [None] is the nil map. *)
Record Permissions : Type := {
  CriticalOptions : option (gmap string string);
  Extensions : option (gmap string string)
}.

(** The zero value of [Permissions]. *)
Definition noPermissions : Permissions :=
  {| CriticalOptions := None; Extensions := None |}.

(** Reading a possibly nil map. *)
Definition entries (m : option (gmap string string)) : gmap string string :=
  default ∅ m.

End ssh.

(** ** package config *)
Module config.

(** Modelled from the spec: the type declarations of package config are
    not part of the sources at hand; the fields are those enroll.go reads
    and the sample configuration names ([auth_proxy.hostname],
    [auth_proxy.username_header], [ssh.user_cert_extensions],
    [strip_suffix], [aliases], [host_cert_duration],
    [user_cert_duration]). *)
Record AuthenticatingProxy : Type := {
  Hostname : string;
  UsernameHeader : string
}.

Record SSH : Type := {
  UserCertExtensions : list string
}.

Record Config : Type := {
  HostCertDuration : string;
  UserCertDuration : string;
  StripSuffix : string;
  Aliases : gmap string (list string);
  AuthenticatingProxy_ : option AuthenticatingProxy;
  SSH_ : SSH
}.

End config.

(** ** Principal and permission policy (pure part of enroll.go) *)

(** The loop [for _, ext := range cfg.UserCertExtensions] that stores the
    empty string under each [ext], started from the freshly made map. *)
Definition fillExtensions (exts : list string) : gmap string string :=
  fold_left (fun m ext => <[ext := EmptyString]> m) exts ∅.

(** [func getPermissionsForCertType(cfg *config.SSH, certType uint32) (perms ssh.Permissions)] *)
Definition getPermissionsForCertType
    (cfg : option config.SSH) (certType : Z) : ssh.Permissions :=
  if decide (certType = ssh.UserCert) then
    match cfg with
    | Some cfg =>
        if (0 <? length (config.UserCertExtensions cfg))%nat
        then {| ssh.CriticalOptions := None;
                ssh.Extensions := Some (fillExtensions (config.UserCertExtensions cfg)) |}
        else ssh.noPermissions
    | None => ssh.noPermissions
    end
  else ssh.noPermissions.

(** The principal list built at the head of [signHost], before the call to
    [sign]. *)
Definition hostPrincipals (conf : config.Config) (hostname : string) : list string :=
  let principals := [hostname] in
  let principals :=
    if negb (bool_decide (config.StripSuffix conf = EmptyString))
       && strings.HasSuffix hostname (config.StripSuffix conf)
    then principals ++ [strings.TrimSuffix hostname (config.StripSuffix conf)]
    else principals in
  match config.Aliases conf !! hostname with
  | Some aliases => principals ++ aliases
  | None => principals
  end.

(** ** Certificates and requests *)

(** [ssh.Certificate], over the public-key and signature representations of
    the ssh package. [SignatureKey] and [Signature] are nil until the
    certificate is signed. *)
Record Certificate {PK Sig : Type} : Type := {
  Nonce : list Byte.byte;
  Key : PK;
  Serial : Z;
  CertType : Z;
  KeyId : string;
  ValidPrincipals : list string;
  ValidAfter : Z;
  ValidBefore : Z;
  Permissions : ssh.Permissions;
  SignatureKey : option PK;
  Signature : option Sig
}.
Arguments Certificate : clear implicits.

(** [net/http] status codes used by the handlers. *)
Definition StatusBadRequest : Z := 400.
Definition StatusUnauthorized : Z := 401.
Definition StatusForbidden : Z := 403.
Definition StatusNotFound : Z := 404.
Definition StatusInternalServerError : Z := 500.
Definition StatusOK : Z := 200.

(** The representations the handlers are generic in: what stands behind
    the interfaces [ssh.PublicKey] and [ssh.Signer], the peer certificates
    of crypto/x509, signatures, and the state of the two collaborators a
    call may change (the database, the random source). *)
Class Types : Type := {
  x509Certificate : Type;
  PublicKey : Type;
  Signature_ : Type;
  Signer : Type;
  Entropy : Type;
  Storage : Type
}.

(** The collaborators of the handlers: what the Go code reaches through
    interfaces and through the standard library. State that a call may
    change is passed in and handed back. *)
Class Platform (T : Types) : Type := {
  (** crypto/x509, [cert.VerifyHostname(h)]: the error text, [None] for nil *)
  VerifyHostname : x509Certificate → string → option string;
  (** golang.org/x/crypto/ssh *)
  ParseAuthorizedKey : list Byte.byte → result PublicKey;
  key_Type : PublicKey → string;
  key_Marshal : PublicKey → list Byte.byte;
  cert_Marshal : Certificate PublicKey Signature_ → list Byte.byte;
  (** crypto/rand *)
  rand_Read : Entropy → nat → Entropy * result (list Byte.byte);
  (** [Certificate.SignCert(rand, authority)] writes the fields [Nonce],
      [SignatureKey] and [Signature] of its receiver, and no other; the
      three values are what a successful call yields. *)
  SignCert : Signer → Entropy → Certificate PublicKey Signature_ →
             Entropy * result (list Byte.byte * PublicKey * Signature_);
  (** encoding/base64 *)
  base64_EncodeToString : list Byte.byte → string;
  (** time *)
  ParseDuration : string → result Z;
  (** net/textproto *)
  CanonicalMIMEHeaderKey : string → string;
  (** the storage backend behind [c.storage] *)
  RecordIssuance : Storage → Z → string → PublicKey → Storage * result Z
}.

(** What running a piece of Go yields: a value, or a run-time panic. *)
Inductive outcome (A : Type) : Type :=
| Done (a : A)
| Panic (msg : string).
Arguments Done {A} a.
Arguments Panic {A} msg.

Section Handlers.
Context {T : Types} {P : Platform T}.

Abbreviation Cert := (Certificate PublicKey Signature_).

(** [tls.ConnectionState], as far as the handlers read it. *)
Record ConnectionState : Type := {
  VerifiedChains : list (list x509Certificate)
}.

(** [http.Request]: [TLS] is a pointer and may be nil; [Body] stands for
    what [ioutil.ReadAll(r.Body)] returns; [Vars] is [mux.Vars(r)]. *)
Record Request : Type := {
  Method : string;
  URL : string;
  Vars : gmap string string;
  Header : gmap string (list string);
  TLS : option ConnectionState;
  Body : result (list Byte.byte)
}.

(** Values logged as fields of a logrus entry. *)
Inductive logValue : Type :=
| LString (s : string)
| LInt (n : Z).

Record LogEntry : Type := {
  level : string;
  message : string;
  fields : list (string * logValue)
}.

(** What a request leaves behind outside the process: ledger calls with
    their results, certificates handed to the signer, and log lines. *)
Inductive Event : Type :=
| EvRecordIssuance (certType : Z) (principal : string) (pubkey : PublicKey)
                   (res : result Z)
| EvSignCert (template : Cert) (res : result (list Byte.byte * PublicKey * Signature_))
| EvLog (entry : LogEntry).

(** [http.ResponseWriter]: the status line once written, and the body. *)
Record Response : Type := {
  status : option Z;
  written : string
}.

Record World : Type := {
  storage : Storage;
  entropy : Entropy;
  clock : Z;               (* what time.Now() reads, nanoseconds since the epoch *)
  response : Response;
  journal : list Event
}.

(** [type Api struct { conf *config.Config; storage ...; signer ssh.Signer; logger ... }];
    the storage and the logger live in the [World]. *)
Record Api : Type := {
  conf : config.Config;
  signer : Signer
}.

(** ** Handler computations: state passing with run-time panics *)

Definition M (A : Type) : Type := World → outcome A * World.

Definition ret {A} (a : A) : M A := λ w, (Done a, w).

Definition bind {A B} (m : M A) (k : A → M B) : M B :=
  λ w, match m w with
       | (Done a, w') => k a w'
       | (Panic msg, w') => (Panic msg, w')
       end.

Definition lift {A} (o : outcome A) : M A := λ w, (o, w).

Notation "x <- m ;; k" := (bind m (λ x, k))
  (at level 100, m at next level, right associativity).
Notation "m ;;; k" := (bind m (λ _, k))
  (at level 100, right associativity).

Definition emit (e : Event) : M unit :=
  λ w, (Done tt, {| storage := storage w; entropy := entropy w; clock := clock w;
                    response := response w; journal := journal w ++ [e] |}).

Definition setResponse (f : Response → Response) : M unit :=
  λ w, (Done tt, {| storage := storage w; entropy := entropy w; clock := clock w;
                    response := f (response w); journal := journal w |}).

(** [w.WriteHeader(code)]: only the first call counts. *)
Definition WriteHeader (code : Z) : M unit :=
  setResponse (λ rs, {| status := Some (default code (status rs));
                        written := written rs |}).

(** [w.Write(data)]: writes the header with 200 if none was written. *)
Definition Write (data : string) : M unit :=
  WriteHeader StatusOK ;;;
  setResponse (λ rs, {| status := status rs; written := written rs +:+ data |}).

(** [http.Error(w, error, code)]: [w.WriteHeader(code); fmt.Fprintln(w, error)]. *)
Definition http_Error (error : string) (code : Z) : M unit :=
  WriteHeader code ;;;
  Write (error +:+ newline).

Definition logger_log (lvl : string) (flds : list (string * logValue)) (msg : string) : M unit :=
  emit (EvLog {| level := lvl; message := msg; fields := flds |}).

(** [time.Now()] *)
Definition time_Now : M Z := λ w, (Done (clock w), w).

(** [rand.Read(nonce)] for a buffer of [n] bytes. *)
Definition crypto_rand_Read (n : nat) : M (result (list Byte.byte)) :=
  λ w, let '(e, res) := rand_Read (entropy w) n in
       (Done res, {| storage := storage w; entropy := e; clock := clock w;
                     response := response w; journal := journal w |}).

(** [c.storage.RecordIssuance(certType, principal, pubkey)] *)
Definition storage_RecordIssuance (certType : Z) (principal : string)
    (pubkey : PublicKey) : M (result Z) :=
  λ w, let '(s, res) := RecordIssuance (storage w) certType principal pubkey in
       (Done res, {| storage := s; entropy := entropy w; clock := clock w;
                     response := response w;
                     journal := journal w ++ [EvRecordIssuance certType principal pubkey res] |}).

(** The receiver of [SignCert] after a successful call. *)
Definition withSignature (template : Cert)
    (sg : list Byte.byte * PublicKey * Signature_) : Cert :=
  let '(nonce, sigkey, sig) := sg in
  {| Nonce := nonce; Key := Key template; Serial := Serial template;
     CertType := CertType template; KeyId := KeyId template;
     ValidPrincipals := ValidPrincipals template;
     ValidAfter := ValidAfter template;
     ValidBefore := ValidBefore template;
     Permissions := Permissions template;
     SignatureKey := Some sigkey; Signature := Some sig |}.

(** [template.SignCert(rand.Reader, c.signer)]: the template as the call
    leaves it, or the error. *)
Definition template_SignCert (authority : Signer) (template : Cert) : M (result Cert) :=
  λ w, let '(e, res) := SignCert authority (entropy w) template in
       (Done match res with
             | Ok sg => Ok (withSignature template sg)
             | Err msg => Err msg
             end,
        {| storage := storage w; entropy := e; clock := clock w;
           response := response w;
           journal := journal w ++ [EvSignCert template res] |}).

(** ** package time, as far as [sign] uses it

    A [time.Time] is the number of nanoseconds since the Unix epoch, a
    [time.Duration] a number of nanoseconds. *)
Definition time_Add (t d : Z) : Z := t + d.

(** [t.Unix()]: whole seconds since the epoch, rounded down. *)
Definition time_Unix (t : Z) : Z := t / 1000000000.

(** ** enroll.go *)

(** [func logHttpError(r, w, err, code, logger)] *)
Definition logHttpError (r : Request) (err : string) (code : Z) : M unit :=
  logger_log "error"
    [("method", LString (Method r)); ("url", LString (URL r));
     ("code", LInt code); ("error", LString err)]
    "logHttpError" ;;;
  http_Error err code.

(** [func readPubkey(r *http.Request) (ssh.PublicKey, error)] *)
Definition readPubkey (r : Request) : result PublicKey :=
  match Body r with
  | Err err => Err err
  | Ok data => ParseAuthorizedKey data
  end.

(** [func encodeCert(certificate *ssh.Certificate) (string, error)] *)
Definition encodeCert (certificate : Cert) : result string :=
  let certString := base64_EncodeToString (cert_Marshal certificate) in
  Ok (key_Type (Key certificate) +:+ "-cert-v01@openssh.com " +:+ certString +:+ newline).

(** [func clientAuthenticated(r *http.Request) bool] *)
Definition clientAuthenticated (r : Request) : outcome bool :=
  match TLS r with
  | None => Panic "nil pointer dereference"
  | Some conn => Done (0 <? length (VerifiedChains conn))%nat
  end.

(** [func clientHostnameMatches(hostname string, r *http.Request) bool] *)
Definition clientHostnameMatches (hostname : string) (r : Request) : outcome bool :=
  match TLS r with
  | None => Panic "nil pointer dereference"
  | Some conn =>
      if (length (VerifiedChains conn) =? 0)%nat then Done false
      else
        match VerifiedChains conn !! 0%nat with
        | None => Panic "index out of range"
        | Some chain =>
            match chain !! 0%nat with
            | None => Panic "index out of range"
            | Some cert => Done (bool_decide (VerifyHostname cert hostname = None))
            end
        end
  end.

(** [func getDurationForCertType(cfg *config.Config, certType uint32) (time.Duration, error)] *)
Definition getDurationForCertType (cfg : config.Config) (certType : Z) : result Z :=
  if decide (certType = ssh.HostCert) then ParseDuration (config.HostCertDuration cfg)
  else if decide (certType = ssh.UserCert) then ParseDuration (config.UserCertDuration cfg)
  else Err ("unknown cert type " +:+ pretty certType).

(** [func (c *Api) sign(keyId, principals, serial, certType, pubkey) ( *ssh.Certificate, error)] *)
Definition sign (c : Api) (keyId : string) (principals : list string)
    (serial : Z) (certType : Z) (pubkey : PublicKey) : M (result Cert) :=
  nonce <- crypto_rand_Read 32 ;;
  match nonce with
  | Err err => ret (Err err)
  | Ok nonce =>
      startTime <- time_Now ;;
      match getDurationForCertType (conf c) certType with
      | Err err => ret (Err err)
      | Ok duration =>
          let endTime := time_Add startTime duration in
          let template :=
            {| Nonce := nonce;
               Key := pubkey;
               Serial := serial;
               CertType := certType;
               KeyId := keyId;
               ValidPrincipals := principals;
               ValidAfter := uint64 (time_Unix startTime);
               ValidBefore := uint64 (time_Unix endTime);
               Permissions :=
                 getPermissionsForCertType (Some (config.SSH_ (conf c))) certType;
               SignatureKey := None;
               Signature := None |} in
          template_SignCert (signer c) template
      end
  end.

(** [func (c *Api) signHost(hostname, serial, pubkey) ( *ssh.Certificate, error)] *)
Definition signHost (c : Api) (hostname : string) (serial : Z)
    (pubkey : PublicKey) : M (result Cert) :=
  sign c hostname (hostPrincipals (conf c) hostname) serial ssh.HostCert pubkey.

(** [func (c *Api) EnrollHost(hostname string, r *http.Request) (string, error)] *)
Definition EnrollHost (c : Api) (hostname : string) (r : Request) : M (result string) :=
  match readPubkey r with
  | Err err => ret (Err err)
  | Ok pubkey =>
      id <- storage_RecordIssuance ssh.HostCert hostname pubkey ;;
      match id with
      | Err err => ret (Err err)
      | Ok id =>
          signedCert <- signHost c hostname id pubkey ;;
          match signedCert with
          | Err err => ret (Err err)
          | Ok signedCert => ret (encodeCert signedCert)
          end
      end
  end.

(** [func (c *Api) Enroll(w http.ResponseWriter, r *http.Request)] *)
Definition Enroll (c : Api) (r : Request) : M unit :=
  let hostname := default EmptyString (Vars r !! "hostname") in
  authenticated <- lift (clientAuthenticated r) ;;
  if negb authenticated then
    http_Error "no client certificate provided" StatusUnauthorized
  else
    matches <- lift (clientHostnameMatches hostname r) ;;
    if negb matches then
      http_Error "hostname does not match certificate" StatusForbidden
    else
      cert <- EnrollHost c hostname r ;;
      match cert with
      | Err err =>
          logger_log "error" [] "internal error" ;;;
          http_Error err StatusInternalServerError
      | Ok cert => Write cert
      end.

(** [r.Header.Get(key)]: the first value stored under the canonical form
    of [key], or the empty string. *)
Definition Header_Get (h : gmap string (list string)) (key : string) : string :=
  match h !! CanonicalMIMEHeaderKey key with
  | Some (v :: _) => v
  | _ => EmptyString
  end.

(** [func proxyAuthenticated(ap *config.AuthenticatingProxy, w, r, logger) (string, bool)] *)
Definition proxyAuthenticated (ap : option config.AuthenticatingProxy)
    (r : Request) : M (string * bool) :=
  match ap with
  | None =>
      logHttpError r "client certificates are unavailable" StatusNotFound ;;;
      ret (EmptyString, false)
  | Some ap =>
      authenticated <- lift (clientAuthenticated r) ;;
      fromProxy <- (if authenticated
                    then lift (clientHostnameMatches (config.Hostname ap) r)
                    else ret false) ;;
      if negb fromProxy then
        logHttpError r "request didn't come from proxy" StatusUnauthorized ;;;
        ret (EmptyString, false)
      else
        let user := Header_Get (Header r) (config.UsernameHeader ap) in
        if bool_decide (user = EmptyString) then
          logHttpError r "no username supplied" StatusUnauthorized ;;;
          ret (EmptyString, false)
        else ret (user, true)
  end.

(** [func (c *Api) EnrollUser(w http.ResponseWriter, r *http.Request)] *)
Definition EnrollUser (c : Api) (r : Request) : M unit :=
  auth <- proxyAuthenticated (config.AuthenticatingProxy_ (conf c)) r ;;
  let '(user, ok) := auth in
  if negb ok then ret tt
  else
    match readPubkey r with
    | Err err => logHttpError r err StatusBadRequest
    | Ok pk =>
        id <- storage_RecordIssuance ssh.UserCert user pk ;;
        match id with
        | Err err => logHttpError r err StatusInternalServerError
        | Ok id =>
            certificate <- sign c user [user] id ssh.UserCert pk ;;
            match certificate with
            | Err err => logHttpError r err StatusInternalServerError
            | Ok certificate =>
                match encodeCert certificate with
                | Err err => logHttpError r err StatusInternalServerError
                | Ok certString =>
                    Write certString ;;;
                    let encodedPublicKey := base64_EncodeToString (key_Marshal pk) in
                    logger_log "info"
                      [("Type", LString (key_Type pk));
                       ("Public Key", LString encodedPublicKey);
                       ("user", LString user)]
                      "call EnrollUser"
                end
            end
        end
    end.

(** ** Observing a run *)

(** The certificate [sign] hands to the signer, given the nonce it drew,
    the time it read and the duration it resolved. *)
Definition signTemplate (c : Api) (keyId : string) (principals : list string)
    (serial : Z) (certType : Z) (pubkey : PublicKey)
    (nonce : list Byte.byte) (startTime duration : Z) : Cert :=
  {| Nonce := nonce;
     Key := pubkey;
     Serial := serial;
     CertType := certType;
     KeyId := keyId;
     ValidPrincipals := principals;
     ValidAfter := uint64 (time_Unix startTime);
     ValidBefore := uint64 (time_Unix (time_Add startTime duration));
     Permissions := getPermissionsForCertType (Some (config.SSH_ (conf c))) certType;
     SignatureKey := None;
     Signature := None |}.

Definition isLedgerCall (e : Event) : bool :=
  match e with EvRecordIssuance _ _ _ _ => true | _ => false end.

Definition isSignCall (e : Event) : bool :=
  match e with EvSignCert _ _ => true | _ => false end.

(** The calls to [RecordIssuance], and to [SignCert], among some events. *)
Definition ledgerCalls (evs : list Event) : list Event := List.filter isLedgerCall evs.
Definition signCalls (evs : list Event) : list Event := List.filter isSignCall evs.

(** A run from [w] to [w'] left the ledger alone: no call was made and the
    store is as it was. *)
Definition noLedgerWrite (w w' : World) : Prop :=
  storage w' = storage w ∧ ledgerCalls (journal w') = ledgerCalls (journal w).

(** A run from [w] to [w'] did not reach the signer. *)
Definition noSigning (w w' : World) : Prop :=
  signCalls (journal w') = signCalls (journal w).

(** The handler starts on a response nothing was written to. *)
Definition fresh (w : World) : Prop :=
  response w = {| status := None; written := EmptyString |}.

(** The evidence authenticates as the proxy: a chain is present and its
    first leaf validates for the configured proxy hostname. *)
Definition fromProxy (ap : config.AuthenticatingProxy) (conn : ConnectionState) : Prop :=
  ∃ leaf rest chains,
    VerifiedChains conn = (leaf :: rest) :: chains ∧
    VerifyHostname leaf (config.Hostname ap) = None.

(** A time whose Unix seconds fit the [uint64] fields of a certificate. *)
Definition representable (t : Z) : Prop := 0 ≤ time_Unix t < 2 ^ 64.

(** The world a stage of the pipeline leaves: the ledger and the random
    source as the stage left them, the events it added. *)
Definition after (w : World) (s : Storage) (e : Entropy) (evs : list Event) : World :=
  {| storage := s; entropy := e; clock := clock w; response := response w;
     journal := journal w ++ evs |}.

(** The ways through the two steps both flows share, the ledger call and
    then [sign]: the ledger refuses; the ledger gives a serial and [sign]
    stops before the signer (no nonce, or no duration); the signer is
    called on the template that carries the serial. Each way comes with
    the result of the two steps, the ledger afterwards and the events. *)
Inductive issuance (c : Api) (certType : Z) (identity : string)
    (principals : list string) (pubkey : PublicKey) (w : World) :
    result Cert → Storage → list Event → Prop :=
| ledger_refused s err :
    RecordIssuance (storage w) certType identity pubkey = (s, Err err) →
    issuance c certType identity principals pubkey w (Err err) s
      [EvRecordIssuance certType identity pubkey (Err err)]
| signer_not_reached s id err :
    RecordIssuance (storage w) certType identity pubkey = (s, Ok id) →
    issuance c certType identity principals pubkey w (Err err) s
      [EvRecordIssuance certType identity pubkey (Ok id)]
| signer_called s id nonce d sres :
    RecordIssuance (storage w) certType identity pubkey = (s, Ok id) →
    getDurationForCertType (conf c) certType = Ok d →
    issuance c certType identity principals pubkey w
      match sres with
      | Ok sg => Ok (withSignature
                       (signTemplate c identity principals id certType pubkey
                          nonce (clock w) d) sg)
      | Err msg => Err msg
      end
      s
      [EvRecordIssuance certType identity pubkey (Ok id);
       EvSignCert (signTemplate c identity principals id certType pubkey
                     nonce (clock w) d) sres].

(** Every certificate handed to the signer carries the serial that the one
    ledger call among the same events returned. *)
Definition serialDiscipline (evs : list Event) : Prop :=
  ∀ template res,
    EvSignCert template res ∈ evs →
    ∃ certType identity pubkey,
      ledgerCalls evs =
        [EvRecordIssuance certType identity pubkey (Ok (Serial template))].

(** The request fails inside the pipeline with [err]: the ledger call
    returns it, or the ledger gives a serial and [sign] returns it (no
    nonce, no duration, or the signer refuses). *)
Definition internalFailure (c : Api) (certType : Z) (identity : string)
    (principals : list string) (pubkey : PublicKey) (w : World) (err : string) : Prop :=
  (∃ s, RecordIssuance (storage w) certType identity pubkey = (s, Err err)) ∨
  (∃ s id w1,
     RecordIssuance (storage w) certType identity pubkey = (s, Ok id) ∧
     sign c identity principals id certType pubkey
       (after w s (entropy w) [EvRecordIssuance certType identity pubkey (Ok id)]) =
       (Done (Err err), w1)).

(** What [EnrollUser] does with the outcome of the two shared steps. *)
Definition respondUser (r : Request) (user : string) (pk : PublicKey)
    (certificate : result Cert) : M unit :=
  match certificate with
  | Err err => logHttpError r err StatusInternalServerError
  | Ok certificate =>
      match encodeCert certificate with
      | Err err => logHttpError r err StatusInternalServerError
      | Ok certString =>
          Write certString ;;;
          logger_log "info"
            [("Type", LString (key_Type pk));
             ("Public Key", LString (base64_EncodeToString (key_Marshal pk)));
             ("user", LString user)]
            "call EnrollUser"
      end
  end.

End Handlers.

Notation "x <- m ;; k" := (bind m (λ x, k))
  (at level 100, m at next level, right associativity).
Notation "m ;;; k" := (bind m (λ _, k))
  (at level 100, right associativity).

(** ** time.ParseDuration on durations written without a fractional part

    The strings [[-+]?([0-9]+unit)+] are read as the Go standard library
    reads them, overflow checks included. A fractional part goes through
    [float64] arithmetic in Go and is left out: such strings are reported
    as errors here. *)
Module duration.

Definition isDigit (c : Ascii.ascii) : bool :=
  (48 <=? Ascii.nat_of_ascii c)%nat && (Ascii.nat_of_ascii c <=? 57)%nat.

Definition isDot (c : Ascii.ascii) : bool :=
  (Ascii.nat_of_ascii c =? 46)%nat.

Definition quote (s : string) : string :=
  String (Ascii.ascii_of_nat 34) s +:+ String (Ascii.ascii_of_nat 34) EmptyString.

(** [var unitMap = map[string]uint64{...}] *)
Definition unitMap (u : string) : option Z :=
  if bool_decide (u = "ns") then Some 1
  else if bool_decide (u = "us") then Some 1000
  else if bool_decide (u = "µs") then Some 1000
  else if bool_decide (u = "μs") then Some 1000
  else if bool_decide (u = "ms") then Some 1000000
  else if bool_decide (u = "s") then Some 1000000000
  else if bool_decide (u = "m") then Some 60000000000
  else if bool_decide (u = "h") then Some 3600000000000
  else None.

(** [leadingInt]: the leading digits as a number and the rest of the
    string; [None] is [errLeadingInt] (overflow). *)
Fixpoint leadingInt (s : string) (x : Z) : option (Z * string) :=
  match s with
  | String c rem =>
      if isDigit c then
        if 2 ^ 63 / 10 <? x then None
        else
          let x := x * 10 + Z.of_nat (Ascii.nat_of_ascii c) - 48 in
          if 2 ^ 63 <? x then None else leadingInt rem x
      else Some (x, s)
  | EmptyString => Some (x, s)
  end.

(** The unit: everything up to the next digit or dot. *)
Fixpoint splitUnit (s : string) : string * string :=
  match s with
  | String c rem =>
      if isDot c || isDigit c then (EmptyString, s)
      else let '(u, rest) := splitUnit rem in (String c u, rest)
  | EmptyString => (EmptyString, EmptyString)
  end.

(** The loop [for s != ""] over the number-unit groups; each round
    consumes at least one character, so [String.length s] rounds suffice. *)
Fixpoint groups (fuel : nat) (orig s : string) (d : Z) : result Z :=
  match s with
  | EmptyString => Ok d
  | String c _ =>
      match fuel with
      | O => Err ("time: invalid duration " +:+ quote orig)
      | S fuel =>
          if negb (isDot c || isDigit c)
          then Err ("time: invalid duration " +:+ quote orig)
          else
            match leadingInt s 0 with
            | None => Err ("time: invalid duration " +:+ quote orig)
            | Some (v, rest) =>
                match rest with
                | String c' _ =>
                    if isDot c'
                    then Err ("time: fractional duration " +:+ quote orig)
                    else
                      let '(u, rest') := splitUnit rest in
                      match unitMap u with
                      | None =>
                          Err ("time: unknown unit " +:+ quote u +:+
                               " in duration " +:+ quote orig)
                      | Some unit =>
                          if 2 ^ 63 / unit <? v
                          then Err ("time: invalid duration " +:+ quote orig)
                          else
                            let d := d + v * unit in
                            if 2 ^ 63 <? d
                            then Err ("time: invalid duration " +:+ quote orig)
                            else groups fuel orig rest' d
                      end
                | EmptyString =>
                    Err ("time: missing unit in duration " +:+ quote orig)
                end
            end
      end
  end.

(** [func ParseDuration(s string) (Duration, error)] *)
Definition ParseDuration (orig : string) : result Z :=
  let '(neg, s) :=
    match orig with
    | String c rem =>
        if (Ascii.nat_of_ascii c =? 45)%nat then (true, rem)
        else if (Ascii.nat_of_ascii c =? 43)%nat then (false, rem)
        else (false, orig)
    | EmptyString => (false, orig)
    end in
  if bool_decide (s = "0") then Ok 0
  else if bool_decide (s = EmptyString)
  then Err ("time: invalid duration " +:+ quote orig)
  else
    match groups (String.length s) orig s 0 with
    | Err err => Err err
    | Ok d =>
        if neg then Ok (- d)
        else if 2 ^ 63 - 1 <? d
        then Err ("time: invalid duration " +:+ quote orig)
        else Ok d
    end.

End duration.

(** ** A small deployment to run the handlers on

    Stand-ins for the collaborators, in the manner of the fakes a test
    suite would use: a peer certificate is the list of DNS names it is
    valid for, a public key is its encoded bytes, the ledger answers from
    a script, randomness and the CA signer always succeed. *)
Module Sample.

Definition answer (script : list (result Z)) : list (result Z) * result Z :=
  match script with
  | [] => ([], Err "sql: database is closed")
  | res :: script => (script, res)
  end.

(** A certificate for [names] validates exactly for those names. *)
Definition validFor (names : list string) (h : string) : option string :=
  if bool_decide (h ∈ names) then None
  else Some ("x509: certificate is not valid for " +:+ h).

#[global] Instance types : Types := {|
  x509Certificate := list string;
  PublicKey := list Byte.byte;
  Signature_ := list Byte.byte;
  Signer := list Byte.byte;
  Entropy := unit;
  Storage := list (result Z)
|}.

#[global] Instance platform : Platform types := {|
  VerifyHostname := validFor;
  ParseAuthorizedKey data :=
    match data with
    | [] => Err "ssh: no key found"
    | _ => Ok data
    end;
  key_Type _ := "ssh-ed25519";
  key_Marshal k := k;
  cert_Marshal c := Key c;
  rand_Read e n := (e, Ok (replicate n Byte.x00));
  SignCert authority e template := (e, Ok (replicate 32 Byte.x2a, authority, []));
  base64_EncodeToString _ := "AAAA";
  ParseDuration := duration.ParseDuration;
  CanonicalMIMEHeaderKey k := k;
  RecordIssuance script _ _ _ := answer script
|}.

(** The sample configuration file, with the aliases of the worked
    example of the principal policy. *)
Definition configuration : config.Config :=
  {| config.HostCertDuration := "168h";
     config.UserCertDuration := "24h";
     config.StripSuffix := ".example.com";
     config.Aliases := {[ "host.example.com" := ["a.example.com"; "b.example.com"] ]};
     config.AuthenticatingProxy_ :=
       Some {| config.Hostname := "proxy.example.com";
               config.UsernameHeader := "X-Forwarded-User" |};
     config.SSH_ :=
       {| config.UserCertExtensions :=
            ["permit-X11-forwarding"; "permit-agent-forwarding";
             "permit-port-forwarding"; "permit-pty"; "permit-user-rc"] |} |}.

Definition api : Api := {| conf := configuration; signer := [Byte.x01] |}.

(** The same deployment with the [auth_proxy] section left out. *)
Definition apiWithoutProxy : Api :=
  {| conf :=
       {| config.HostCertDuration := "168h";
          config.UserCertDuration := "24h";
          config.StripSuffix := ".example.com";
          config.Aliases := config.Aliases configuration;
          config.AuthenticatingProxy_ := None;
          config.SSH_ := config.SSH_ configuration |};
     signer := [Byte.x01] |}.

(** The same deployment with [host_cert_duration: 1500ms]. *)
Definition apiSubSecond : Api :=
  {| conf :=
       {| config.HostCertDuration := "1500ms";
          config.UserCertDuration := "24h";
          config.StripSuffix := ".example.com";
          config.Aliases := config.Aliases configuration;
          config.AuthenticatingProxy_ := config.AuthenticatingProxy_ configuration;
          config.SSH_ := config.SSH_ configuration |};
     signer := [Byte.x01] |}.

Definition key : list Byte.byte := [Byte.x73; Byte.x73; Byte.x68].

(** A world whose ledger will answer with the given script; the clock
    reads 2026-01-01T00:00:00.6Z. *)
Definition world (script : list (result Z)) : World :=
  {| storage := script; entropy := tt; clock := 1767225600600000000;
     response := {| status := None; written := EmptyString |};
     journal := [] |}.

(** The connection of a peer that showed a certificate for [names], and
    of one that showed none. *)
Definition peer (names : list string) : @ConnectionState types :=
  {| VerifiedChains := [[names : @x509Certificate types]] |}.

Definition nobody : @ConnectionState types := {| VerifiedChains := [] |}.

(** A request authenticated by a peer certificate for [names]. *)
Definition request (names : list string) (vars : gmap string string)
    (header : gmap string (list string)) (body : result (list Byte.byte)) : Request :=
  {| Method := "POST"; URL := "/enroll"; Vars := vars; Header := header;
     TLS := Some (peer names);
     Body := body |}.

(** A host asking for a certificate for its own name. *)
Definition hostRequest (body : result (list Byte.byte)) : Request :=
  request ["host.example.com"] {[ "hostname" := "host.example.com" ]} ∅ body.

(** The same request from a peer that showed no certificate. *)
Definition anonymousRequest : Request :=
  {| Method := "POST"; URL := "/enroll";
     Vars := {[ "hostname" := "host.example.com" ]}; Header := ∅;
     TLS := Some nobody;
     Body := Ok key |}.

(** A user enrollment forwarded by the authenticating proxy. *)
Definition proxyRequest (user : string) (body : result (list Byte.byte)) : Request :=
  request ["proxy.example.com"] ∅ {[ "X-Forwarded-User" := [user] ]} body.

(** The same deployment with durations that do not parse. *)
Definition apiBadDuration : Api :=
  {| conf :=
       {| config.HostCertDuration := "one week";
          config.UserCertDuration := "24";
          config.StripSuffix := ".example.com";
          config.Aliases := config.Aliases configuration;
          config.AuthenticatingProxy_ := config.AuthenticatingProxy_ configuration;
          config.SSH_ := config.SSH_ configuration |};
     signer := [Byte.x01] |}.

(** The same deployment with [host_cert_duration: -1h]. *)
Definition apiNegativeDuration : Api :=
  {| conf :=
       {| config.HostCertDuration := "-1h";
          config.UserCertDuration := "24h";
          config.StripSuffix := ".example.com";
          config.Aliases := config.Aliases configuration;
          config.AuthenticatingProxy_ := config.AuthenticatingProxy_ configuration;
          config.SSH_ := config.SSH_ configuration |};
     signer := [Byte.x01] |}.

End Sample.

(** [sub] occurs in [s]. *)
Definition occursIn (sub s : string) : Prop :=
  ∃ before after, s = before +:+ sub +:+ after.

(** ** The principal policy in the words of the specification

    The list starts with the identity; the identity without the configured
    suffix follows when the suffix is not empty and the identity ends with
    it; the configured aliases of the identity close the list, in their
    configured order. *)
Inductive specHostPrincipals (suffix : string) (aliases : gmap string (list string))
    (h : string) : list string → Prop :=
| principals_stripped (p : string) :
    suffix ≠ EmptyString →
    h = p +:+ suffix →
    specHostPrincipals suffix aliases h ([h] ++ [p] ++ default [] (aliases !! h))
| principals_plain :
    ¬ (suffix ≠ EmptyString ∧ ∃ p, h = p +:+ suffix) →
    specHostPrincipals suffix aliases h ([h] ++ default [] (aliases !! h)).

(** ** What the handlers log and answer *)
Section Answers.
Context {T : Types} {P : Platform T}.

(** The entry [logHttpError] writes. *)
Definition httpErrorEntry (r : Request) (err : string) (code : Z) : LogEntry :=
  {| level := "error";
     message := "logHttpError";
     fields := [("method", LString (Method r)); ("url", LString (URL r));
                ("code", LInt code); ("error", LString err)] |}.

(** The entry [Enroll] writes when [EnrollHost] returns an error. *)
Definition internalErrorEntry : LogEntry :=
  {| level := "error"; message := "internal error"; fields := [] |}.

(** The log lines among some events. *)
Definition logEntries (evs : list Event) : list LogEntry :=
  omap (λ e, match e with EvLog entry => Some entry | _ => None end) evs.

(** What [Enroll] does with the result of [EnrollHost]. *)
Definition respondHost (cert : result string) : M unit :=
  match cert with
  | Err err =>
      logger_log "error" [] "internal error" ;;;
      http_Error err StatusInternalServerError
  | Ok cert => Write cert
  end.

(** The line [encodeCert] builds, as a string. *)
Definition certLine (certificate : Certificate PublicKey Signature_) : string :=
  key_Type (Key certificate) +:+ "-cert-v01@openssh.com " +:+
  base64_EncodeToString (cert_Marshal certificate) +:+ newline.

(** The connection can be checked without a panic: its first verified
    chain, if there is one, has a leaf. *)
Definition hasLeaf (conn : ConnectionState) : Prop :=
  ∀ chains, VerifiedChains conn ≠ [] :: chains.

End Answers.

(** The statuses the two handlers can answer with. *)
Definition hostStatuses : list Z :=
  [StatusOK; StatusUnauthorized; StatusForbidden; StatusInternalServerError].

Definition userStatuses : list Z :=
  [StatusOK; StatusBadRequest; StatusUnauthorized; StatusNotFound;
   StatusInternalServerError].

(** * Properties *)

(** Running a handler on closed inputs: [run_as H m] evaluates [m] and
    records the equation as [H]. *)
Ltac run_as H m :=
  let v := eval vm_compute in m in
  assert (m = v) as H by (vm_compute; reflexivity).

(** ** Go string slices against concatenation *)
Section StringFacts.

Lemma app_cons (a : Ascii.ascii) (s t : string) :
  String a s +:+ t = String a (s +:+ t).
Proof. reflexivity. Qed.

Lemma app_nil_l (t : string) : EmptyString +:+ t = t.
Proof. reflexivity. Qed.

Lemma app_length (s t : string) :
  String.length (s +:+ t) = (String.length s + String.length t)%nat.
Proof.
  induction s as [|a s IH]; [reflexivity|].
  rewrite app_cons. simpl. now rewrite IH.
Qed.

Lemma substring_all (s : string) : String.substring 0 (String.length s) s = s.
Proof. induction s as [|a s IH]; simpl; [reflexivity | now rewrite IH]. Qed.

Lemma substring_prefix (p q : string) :
  String.substring 0 (String.length p) (p +:+ q) = p.
Proof.
  induction p as [|a p IH].
  - rewrite app_nil_l. simpl. now destruct q.
  - rewrite app_cons. simpl. now rewrite IH.
Qed.

Lemma substring_suffix (p q : string) :
  String.substring (String.length p) (String.length q) (p +:+ q) = q.
Proof.
  induction p as [|a p IH].
  - rewrite app_nil_l. apply substring_all.
  - rewrite app_cons. simpl. exact IH.
Qed.

(** Cutting a string at [n] and gluing the two slices gives it back. *)
Lemma substring_split (s : string) (n : nat) :
  (n ≤ String.length s)%nat →
  String.substring 0 n s +:+ String.substring n (String.length s - n) s = s.
Proof.
  revert n. induction s as [|a s IH]; intros n Hn.
  - simpl in Hn. assert (n = 0%nat) as -> by lia. reflexivity.
  - destruct n as [|n].
    + simpl. rewrite app_nil_l. now rewrite substring_all.
    + simpl in *. rewrite app_cons. f_equal. apply IH. lia.
Qed.

(** [strings.HasSuffix] holds exactly of the strings that end with the suffix. *)
Lemma HasSuffix_true (s suffix : string) :
  strings.HasSuffix s suffix = true ↔ ∃ p, s = p +:+ suffix.
Proof.
  unfold strings.HasSuffix, strings.slice. split.
  - intros [Hlen Heq%bool_decide_eq_true]%andb_true_iff.
    apply Nat.leb_le in Hlen.
    exists (String.substring 0 (String.length s - String.length suffix) s).
    pose proof (substring_split s (String.length s - String.length suffix)) as Hs.
    rewrite Heq in Hs. symmetry. apply Hs. lia.
  - intros [p ->]. rewrite app_length. apply andb_true_iff. split.
    + apply Nat.leb_le. lia.
    + apply bool_decide_eq_true.
      replace (String.length p + String.length suffix - String.length suffix)%nat
        with (String.length p) by lia.
      replace (String.length p + String.length suffix - String.length p)%nat
        with (String.length suffix) by lia.
      apply substring_suffix.
Qed.

(** [strings.TrimSuffix] removes the suffix it finds. *)
Lemma TrimSuffix_app (p suffix : string) :
  strings.TrimSuffix (p +:+ suffix) suffix = p.
Proof.
  unfold strings.TrimSuffix.
  assert (strings.HasSuffix (p +:+ suffix) suffix = true) as ->
    by (apply HasSuffix_true; eauto).
  unfold strings.slice. rewrite app_length.
  replace (String.length p + String.length suffix - String.length suffix - 0)%nat
    with (String.length p) by lia.
  apply substring_prefix.
Qed.

End StringFacts.

(** ** The signer *)
Section Sign.
Context {T : Types} {P : Platform T}.

(** [sign] never panics, touches neither the ledger nor the response, and
    either stops before the signer or hands it exactly one template. *)
Lemma sign_run (c : Api) keyId principals serial certType pubkey (w : World) :
  ∃ e evs o,
    sign c keyId principals serial certType pubkey w =
      (Done o, {| storage := storage w; entropy := e; clock := clock w;
                  response := response w; journal := journal w ++ evs |}) ∧
    ((evs = [] ∧ ∃ err, o = Err err) ∨
     (∃ nonce d res,
        getDurationForCertType (conf c) certType = Ok d ∧
        evs = [EvSignCert (signTemplate c keyId principals serial certType
                             pubkey nonce (clock w) d) res] ∧
        o = match res with
            | Ok sg => Ok (withSignature
                             (signTemplate c keyId principals serial certType
                                pubkey nonce (clock w) d) sg)
            | Err msg => Err msg
            end)).
Proof.
  destruct w as [st en ck rs jn].
  unfold sign, bind, crypto_rand_Read, time_Now, ret, template_SignCert; simpl.
  destruct (rand_Read en 32) as [e [nonce|err]] eqn:Hrand; simpl.
  - destruct (getDurationForCertType (conf c) certType) as [d|err] eqn:Hd; simpl.
    + fold (signTemplate c keyId principals serial certType pubkey nonce ck d).
      destruct (SignCert (signer c) e _) as [e' res] eqn:Hsig.
      exists e', [EvSignCert (signTemplate c keyId principals serial certType
                                pubkey nonce ck d) res].
      eexists. split; [reflexivity|]. right. exists nonce, d, res. auto.
    + exists e, [], (Err err). rewrite app_nil_r. split; [reflexivity|]. left. eauto.
  - exists e, [], (Err err). rewrite app_nil_r. split; [reflexivity|]. left. eauto.
Qed.

(** A certificate that [sign] returns is the template it built, signed. *)
Lemma sign_Ok (c : Api) keyId principals serial certType pubkey (w w' : World) cert :
  sign c keyId principals serial certType pubkey w = (Done (Ok cert), w') →
  ∃ nonce d sg,
    getDurationForCertType (conf c) certType = Ok d ∧
    cert = withSignature (signTemplate c keyId principals serial certType
                            pubkey nonce (clock w) d) sg ∧
    journal w' = journal w ++
      [EvSignCert (signTemplate c keyId principals serial certType
                     pubkey nonce (clock w) d) (Ok sg)] ∧
    storage w' = storage w ∧ response w' = response w.
Proof.
  intros Hrun.
  destruct (sign_run c keyId principals serial certType pubkey w)
    as (e & evs & o & Heq & Hcases).
  rewrite Heq in Hrun. injection Hrun as -> <-.
  destruct Hcases as [[_ [err [=]]] | (nonce & d & res & Hd & -> & Ho)].
  destruct res as [sg|msg]; [|discriminate].
  injection Ho as ->. exists nonce, d, sg. auto.
Qed.

End Sign.

(** ** Principal policy *)
Section Principals.
Context {T : Types} {P : Platform T}.

(** The list [signHost] builds is the one the specification describes. *)
Lemma hostPrincipals_spec (cfg : config.Config) (h : string) :
  specHostPrincipals (config.StripSuffix cfg) (config.Aliases cfg) h
    (hostPrincipals cfg h).
Proof.
  unfold hostPrincipals.
  destruct (decide (config.StripSuffix cfg = EmptyString)) as [Hempty|Hne].
  - rewrite bool_decide_eq_true_2 by assumption. simpl.
    assert (Hplain : ¬ (config.StripSuffix cfg ≠ EmptyString ∧
                        ∃ p, h = p +:+ config.StripSuffix cfg))
      by (intros [Hne _]; contradiction).
    apply (principals_plain _ (config.Aliases cfg)) in Hplain.
    destruct (config.Aliases cfg !! h); simpl in Hplain; exact Hplain.
  - rewrite bool_decide_eq_false_2 by assumption. simpl.
    destruct (strings.HasSuffix h (config.StripSuffix cfg)) eqn:Hsuf.
    + apply HasSuffix_true in Hsuf as [p Hp].
      assert (Htrim : strings.TrimSuffix h (config.StripSuffix cfg) = p)
        by (rewrite Hp at 1; apply TrimSuffix_app).
      rewrite Htrim.
      pose proof (principals_stripped _ (config.Aliases cfg) h p Hne Hp) as Hs.
      destruct (config.Aliases cfg !! h); simpl in Hs; exact Hs.
    + assert (Hplain : ¬ (config.StripSuffix cfg ≠ EmptyString ∧
                          ∃ p, h = p +:+ config.StripSuffix cfg)).
      { intros [_ Hends]. apply HasSuffix_true in Hends. congruence. }
      apply (principals_plain _ (config.Aliases cfg)) in Hplain.
      destruct (config.Aliases cfg !! h); simpl in Hplain; exact Hplain.
Qed.

(** What [signHost] returns carries the list it built. *)
Lemma signHost_principals (c : Api) hostname serial pubkey (w w' : World) cert :
  signHost c hostname serial pubkey w = (Done (Ok cert), w') →
  ValidPrincipals cert = hostPrincipals (conf c) hostname.
Proof.
  unfold signHost. intros (nonce & d & sg & _ & -> & _)%sign_Ok.
  now destruct sg as [[? ?] ?].
Qed.

End Principals.

(** C2. Every certificate that [signHost] returns for identity [h] lists as
    principals [h], then [h] without the configured suffix when that suffix
    is not empty and [h] ends with it, then the configured aliases of [h]
    in their configured order. With suffix [.example.com] and aliases
    [a.example.com], [b.example.com] for [host.example.com], a certificate
    for [host.example.com] lists [host.example.com], [host],
    [a.example.com], [b.example.com]. *)
Theorem host_principals_composition :
  (∀ (T : Types) (P : Platform T) (c : Api) hostname serial pubkey (w w' : World) cert,
     signHost c hostname serial pubkey w = (Done (Ok cert), w') →
     specHostPrincipals (config.StripSuffix (conf c)) (config.Aliases (conf c))
       hostname (ValidPrincipals cert)) ∧
  (∀ serial pubkey (w w' : World) cert,
     signHost Sample.api "host.example.com" serial pubkey w = (Done (Ok cert), w') →
     ValidPrincipals cert =
       ["host.example.com"; "host"; "a.example.com"; "b.example.com"]).
Proof.
  split.
  - intros T P c hostname serial pubkey w w' cert Hrun.
    rewrite (signHost_principals _ _ _ _ _ _ _ Hrun).
    apply hostPrincipals_spec.
  - intros serial pubkey w w' cert Hrun.
    rewrite (signHost_principals _ _ _ _ _ _ _ Hrun).
    vm_compute. reflexivity.
Qed.

(** The sample host enrollment reaches the signer, and its certificate has
    the principals of the worked example. *)
Lemma host_principals_composition_witness :
  ∃ cert w',
    signHost Sample.api "host.example.com" 7 Sample.key (Sample.world []) =
      (Done (Ok cert), w') ∧
    specHostPrincipals ".example.com" (config.Aliases Sample.configuration)
      "host.example.com" (ValidPrincipals cert) ∧
    ValidPrincipals cert =
      ["host.example.com"; "host"; "a.example.com"; "b.example.com"].
Proof.
  let run := eval vm_compute in
    (signHost Sample.api "host.example.com" 7 Sample.key (Sample.world [])) in
  lazymatch run with
  | (Done (Ok ?cert), ?w') =>
      assert (signHost Sample.api "host.example.com" 7 Sample.key (Sample.world []) =
                (Done (Ok cert), w')) as Hrun by (vm_compute; reflexivity);
      exists cert, w'
  end.
  split; [exact Hrun|]. split.
  - exact (proj1 host_principals_composition Sample.types Sample.platform Sample.api
             "host.example.com" 7 Sample.key (Sample.world []) _ _ Hrun).
  - exact (proj2 host_principals_composition 7 Sample.key (Sample.world []) _ _ Hrun).
Defined.

(** ** Permissions *)
Section PermissionsFacts.
Context {T : Types} {P : Platform T}.

(** The extension loop, started from any map: listed names end on the
    empty string, the others keep what they had. *)
Lemma fold_extensions_lookup (exts : list string) (m : gmap string string) (k : string) :
  fold_left (λ m ext, <[ext := EmptyString]> m) exts m !! k =
    if decide (k ∈ exts) then Some EmptyString else m !! k.
Proof.
  revert m. induction exts as [|ext exts IH]; intros m; simpl.
  - reflexivity.
  - rewrite IH. destruct (decide (k ∈ exts)) as [Hin|Hnotin].
    + rewrite decide_True by (apply elem_of_cons; auto). reflexivity.
    + destruct (decide (k = ext)) as [->|Hne].
      * rewrite decide_True by (apply elem_of_cons; auto).
        apply lookup_insert_eq.
      * rewrite decide_False
          by (intros [?|?]%elem_of_cons; [congruence|contradiction]).
        now apply lookup_insert_ne.
Qed.

Lemma fillExtensions_lookup (exts : list string) (k v : string) :
  fillExtensions exts !! k = Some v ↔ k ∈ exts ∧ v = EmptyString.
Proof.
  unfold fillExtensions. rewrite fold_extensions_lookup.
  destruct (decide (k ∈ exts)) as [Hin|Hnotin].
  - split; [intros [= <-]; auto | intros [_ ->]; reflexivity].
  - rewrite lookup_empty. split; [discriminate | intros [? _]; contradiction].
Qed.

(** The permissions of a returned certificate are those computed from its type. *)
Lemma sign_permissions (c : Api) keyId principals serial certType pubkey
    (w w' : World) cert :
  sign c keyId principals serial certType pubkey w = (Done (Ok cert), w') →
  Permissions cert = getPermissionsForCertType (Some (config.SSH_ (conf c))) certType ∧
  CertType cert = certType.
Proof.
  intros (nonce & d & sg & _ & -> & _)%sign_Ok.
  now destruct sg as [[? ?] ?].
Qed.

(** C4. A HOST certificate that [sign] returns has empty permissions,
    whatever the configured user extensions; a USER certificate returned
    under a non-empty extension list has an extension map whose entries
    are exactly the configured names, each with the empty string as value. *)
Theorem extension_gating (c : Api) keyId principals serial certType pubkey
    (w w' : World) cert :
  sign c keyId principals serial certType pubkey w = (Done (Ok cert), w') →
  (certType = ssh.HostCert →
     Permissions cert = ssh.noPermissions ∧
     ssh.entries (ssh.Extensions (Permissions cert)) = ∅) ∧
  (certType = ssh.UserCert →
     config.UserCertExtensions (config.SSH_ (conf c)) ≠ [] →
     ∃ m, ssh.Extensions (Permissions cert) = Some m ∧
          ∀ k v, m !! k = Some v ↔
                 k ∈ config.UserCertExtensions (config.SSH_ (conf c)) ∧
                 v = EmptyString).
Proof.
  intros [Hperm _]%sign_permissions. rewrite Hperm. clear Hperm.
  unfold getPermissionsForCertType. split.
  - intros ->. rewrite decide_False by discriminate. split; reflexivity.
  - intros -> Hexts. rewrite decide_True by reflexivity.
    destruct (config.UserCertExtensions (config.SSH_ (conf c))) as [|ext exts] eqn:He;
      [contradiction|].
    simpl. eexists. split; [reflexivity|].
    intros k v. apply fillExtensions_lookup.
Qed.

End PermissionsFacts.

(** The sample user certificate carries the five configured extensions and
    the sample host certificate none. *)
Lemma extension_gating_witness :
  (∃ cert w' m,
     sign Sample.api "alice" ["alice"] 7 ssh.UserCert Sample.key (Sample.world []) =
       (Done (Ok cert), w') ∧
     ssh.Extensions (Permissions cert) = Some m ∧
     ∀ k v, m !! k = Some v ↔
            k ∈ config.UserCertExtensions (config.SSH_ Sample.configuration) ∧
            v = EmptyString) ∧
  (∃ cert w',
     sign Sample.api "host.example.com" ["host.example.com"] 8 ssh.HostCert
       Sample.key (Sample.world []) = (Done (Ok cert), w') ∧
     Permissions cert = ssh.noPermissions).
Proof.
  split.
  - assert (∃ cert w',
              sign Sample.api "alice" ["alice"] 7 ssh.UserCert Sample.key
                (Sample.world []) = (Done (Ok cert), w')) as (cert & w' & Hrun)
      by (eexists _, _; vm_compute; reflexivity).
    destruct (extension_gating _ _ _ _ _ _ _ _ _ Hrun) as [_ Huser].
    destruct (Huser eq_refl) as (m & Hm & Hentries); [discriminate|].
    exists cert, w', m. auto.
  - assert (∃ cert w',
              sign Sample.api "host.example.com" ["host.example.com"] 8
                ssh.HostCert Sample.key (Sample.world []) = (Done (Ok cert), w'))
      as (cert & w' & Hrun) by (eexists _, _; vm_compute; reflexivity).
    destruct (extension_gating _ _ _ _ _ _ _ _ _ Hrun) as [Hhost _].
    exists cert, w'. split; [assumption|]. apply (Hhost eq_refl).
Defined.

(** ** The two flows, stage by stage *)
Section Flows.
Context {T : Types} {P : Platform T}.

(** The ledger call followed by [sign], as both flows make them. *)
Lemma record_then_sign (c : Api) certType identity principals pubkey (w : World) :
  ∃ cert s e evs,
    issuance c certType identity principals pubkey w cert s evs ∧
    ∀ (A : Type) (k : result (Certificate PublicKey Signature_) → M A)
      (kerr : string → M A),
      (∀ err, kerr err = k (Err err)) →
      (id <- storage_RecordIssuance certType identity pubkey ;;
       match id with
       | Err err => kerr err
       | Ok id =>
           signed <- sign c identity principals id certType pubkey ;; k signed
       end) w = k cert (after w s e evs).
Proof.
  destruct (RecordIssuance (storage w) certType identity pubkey) as [s [id|err]] eqn:Hrec.
  - destruct (sign_run c identity principals id certType pubkey
                (after w s (entropy w) [EvRecordIssuance certType identity pubkey (Ok id)]))
      as (e & evs & o & Hsign & Hcases).
    unfold after in Hsign.
    destruct Hcases as [[-> [err ->]] | (nonce & d & sres & Hd & -> & ->)].
    + exists (Err err), s, e, [EvRecordIssuance certType identity pubkey (Ok id)].
      split; [now apply signer_not_reached|].
      intros A k kerr Hk.
      unfold bind at 1, storage_RecordIssuance. rewrite Hrec.
      unfold bind. rewrite Hsign.
      unfold after; simpl. now rewrite app_nil_r.
    + eexists _, s, e, _. split; [now apply (signer_called _ _ _ _ _ _ s id nonce d sres)|].
      intros A k kerr Hk.
      unfold bind at 1, storage_RecordIssuance. rewrite Hrec.
      unfold bind. rewrite Hsign.
      unfold after; simpl. now rewrite <- app_assoc.
  - exists (Err err), s, (entropy w), [EvRecordIssuance certType identity pubkey (Err err)].
    split; [now apply ledger_refused|].
    intros A k kerr Hk.
    unfold bind, storage_RecordIssuance. rewrite Hrec. now rewrite Hk.
Qed.

(** A body that is not a key ends [EnrollHost] before anything else happens. *)
Lemma EnrollHost_bad_key (c : Api) hostname (r : Request) (w : World) err :
  readPubkey r = Err err →
  EnrollHost c hostname r w = (Done (Err err), w).
Proof. intros Hkey. unfold EnrollHost. now rewrite Hkey. Qed.

Lemma EnrollHost_run (c : Api) hostname (r : Request) (w : World) pk :
  readPubkey r = Ok pk →
  ∃ cert s e evs,
    issuance c ssh.HostCert hostname (hostPrincipals (conf c) hostname) pk w cert s evs ∧
    EnrollHost c hostname r w =
      (Done match cert with
            | Err err => Err err
            | Ok signedCert => encodeCert signedCert
            end, after w s e evs).
Proof.
  intros Hkey.
  destruct (record_then_sign c ssh.HostCert hostname
              (hostPrincipals (conf c) hostname) pk w)
    as (cert & s & e & evs & Hiss & Hrun).
  exists cert, s, e, evs. split; [exact Hiss|].
  unfold EnrollHost, signHost. rewrite Hkey.
  rewrite (Hrun _ (λ signedCert, match signedCert with
                                 | Err err => ret (Err err)
                                 | Ok signedCert => ret (encodeCert signedCert)
                                 end) (λ err, ret (Err err)))
    by reflexivity.
  now destruct cert.
Qed.

Lemma EnrollUser_run (c : Api) (r : Request) (w : World) user pk :
  proxyAuthenticated (config.AuthenticatingProxy_ (conf c)) r w = (Done (user, true), w) →
  readPubkey r = Ok pk →
  ∃ cert s e evs,
    issuance c ssh.UserCert user [user] pk w cert s evs ∧
    EnrollUser c r w = respondUser r user pk cert (after w s e evs).
Proof.
  intros Hauth Hkey.
  destruct (record_then_sign c ssh.UserCert user [user] pk w)
    as (cert & s & e & evs & Hiss & Hrun).
  exists cert, s, e, evs. split; [exact Hiss|].
  rewrite <- (Hrun _ (respondUser r user pk)
                (λ err, logHttpError r err StatusInternalServerError))
    by reflexivity.
  unfold EnrollUser. unfold bind at 1. rewrite Hauth. simpl. rewrite Hkey.
  reflexivity.
Qed.

End Flows.

(** ** Transport evidence *)
Section Evidence.
Context {T : Types} {P : Platform T}.

Lemma clientAuthenticated_empty (r : Request) conn :
  TLS r = Some conn → VerifiedChains conn = [] →
  clientAuthenticated r = Done false.
Proof. intros Htls Hchains. unfold clientAuthenticated. now rewrite Htls, Hchains. Qed.

Lemma clientAuthenticated_chain (r : Request) conn chain chains :
  TLS r = Some conn → VerifiedChains conn = chain :: chains →
  clientAuthenticated r = Done true.
Proof. intros Htls Hchains. unfold clientAuthenticated. now rewrite Htls, Hchains. Qed.

Lemma clientHostnameMatches_empty hostname (r : Request) conn :
  TLS r = Some conn → VerifiedChains conn = [] →
  clientHostnameMatches hostname r = Done false.
Proof. intros Htls Hchains. unfold clientHostnameMatches. now rewrite Htls, Hchains. Qed.

Lemma clientHostnameMatches_leaf hostname (r : Request) conn leaf rest chains :
  TLS r = Some conn → VerifiedChains conn = (leaf :: rest) :: chains →
  clientHostnameMatches hostname r =
    Done (bool_decide (VerifyHostname leaf hostname = None)).
Proof. intros Htls Hchains. unfold clientHostnameMatches. now rewrite Htls, Hchains. Qed.

(** Writing an error response: the status on a fresh response, and what
    stays as it was. *)
Lemma http_Error_run (error : string) (code : Z) (w : World) :
  ∃ rs, http_Error error code w =
          (Done tt, {| storage := storage w; entropy := entropy w; clock := clock w;
                       response := rs; journal := journal w |}) ∧
        (status (response w) = None → status rs = Some code) ∧
        written rs = written (response w) +:+ error +:+ newline.
Proof.
  eexists. split; [reflexivity|]. simpl. split; [|reflexivity].
  intros ->. reflexivity.
Qed.

Lemma logHttpError_run (r : Request) (err : string) (code : Z) (w : World) :
  ∃ rs entry, logHttpError r err code w =
          (Done tt, {| storage := storage w; entropy := entropy w; clock := clock w;
                       response := rs; journal := journal w ++ [EvLog entry] |}) ∧
        (status (response w) = None → status rs = Some code) ∧
        written rs = written (response w) +:+ err +:+ newline.
Proof.
  eexists _, _. split; [reflexivity|]. simpl. split; [|reflexivity].
  intros ->. reflexivity.
Qed.

Lemma ledgerCalls_app (evs evs' : list Event) :
  ledgerCalls (evs ++ evs') = ledgerCalls evs ++ ledgerCalls evs'.
Proof. apply List.filter_app. Qed.

Lemma signCalls_app (evs evs' : list Event) :
  signCalls (evs ++ evs') = signCalls evs ++ signCalls evs'.
Proof. apply List.filter_app. Qed.

(** A run that added no ledger call, or no signer call, to the journal. *)
Lemma noLedgerWrite_events (w w' : World) (evs : list Event) :
  storage w' = storage w → journal w' = journal w ++ evs →
  ledgerCalls evs = [] → noLedgerWrite w w'.
Proof.
  intros Hs Hj Hquiet. split; [exact Hs|].
  rewrite Hj, ledgerCalls_app, Hquiet. apply app_nil_r.
Qed.

Lemma noSigning_events (w w' : World) (evs : list Event) :
  journal w' = journal w ++ evs → signCalls evs = [] → noSigning w w'.
Proof.
  intros Hj Hquiet. unfold noSigning.
  rewrite Hj, signCalls_app, Hquiet. apply app_nil_r.
Qed.

(** C10. The hostname check answers false on an empty list of verified
    chains, whatever the certificate verifier would say; on a non-empty
    list its answer is the verdict on the leaf of the first chain alone;
    it returns an answer for every connection whose verified chains are
    themselves non-empty (as certificate verification builds them); and
    [Enroll] answers 403 only when a chain is present. *)
Theorem hostname_match_first_leaf (c : Api) (r : Request) (hostname : string)
    (conn : ConnectionState) :
  TLS r = Some conn →
  (VerifiedChains conn = [] → clientHostnameMatches hostname r = Done false) ∧
  (∀ leaf rest chains,
     VerifiedChains conn = (leaf :: rest) :: chains →
     clientHostnameMatches hostname r =
       Done (bool_decide (VerifyHostname leaf hostname = None))) ∧
  (Forall (λ chain, chain ≠ []) (VerifiedChains conn) →
     ∃ b, clientHostnameMatches hostname r = Done b) ∧
  (∀ (w w' : World) o,
     fresh w → Enroll c r w = (o, w') →
     status (response w') = Some StatusForbidden →
     VerifiedChains conn ≠ []).
Proof.
  intros Htls. repeat split.
  - now apply clientHostnameMatches_empty.
  - intros leaf rest chains. now apply clientHostnameMatches_leaf.
  - intros Hwf. destruct (VerifiedChains conn) as [|[|leaf rest] chains] eqn:Hchains.
    + exists false. exact (clientHostnameMatches_empty hostname r conn Htls Hchains).
    + apply Forall_cons in Hwf as [Hne _]. congruence.
    + eexists. exact (clientHostnameMatches_leaf hostname r conn leaf rest chains Htls Hchains).
  - intros w w' o Hfresh Hrun Hstatus Hchains.
    unfold Enroll, bind, lift in Hrun.
    rewrite (clientAuthenticated_empty r conn Htls Hchains) in Hrun. simpl in Hrun.
    destruct (http_Error_run "no client certificate provided" StatusUnauthorized w)
      as (rs & Herr & Hst & _).
    rewrite Herr in Hrun. injection Hrun as _ <-. simpl in Hstatus.
    rewrite Hst in Hstatus by (now rewrite Hfresh). discriminate.
Qed.

End Evidence.

(** On the sample host request the leaf is valid for the claimed name; with
    no verified chain the check answers false. *)
Lemma hostname_match_first_leaf_witness :
  clientHostnameMatches "host.example.com" (Sample.hostRequest (Ok Sample.key)) = Done true ∧
  clientHostnameMatches "host.example.com" Sample.anonymousRequest = Done false ∧
  (∃ b, clientHostnameMatches "other.example.com" (Sample.hostRequest (Ok Sample.key)) = Done b).
Proof.
  split; [|split].
  - destruct (hostname_match_first_leaf Sample.api (Sample.hostRequest (Ok Sample.key))
                "host.example.com" (Sample.peer ["host.example.com"]) eq_refl)
      as (_ & Hleaf & _).
    exact (Hleaf ["host.example.com"] [] [] eq_refl).
  - destruct (hostname_match_first_leaf Sample.api Sample.anonymousRequest
                "host.example.com" Sample.nobody eq_refl)
      as (Hempty & _).
    exact (Hempty eq_refl).
  - destruct (hostname_match_first_leaf Sample.api (Sample.hostRequest (Ok Sample.key))
                "other.example.com" (Sample.peer ["host.example.com"]) eq_refl)
      as (_ & _ & Htotal & _).
    apply Htotal. repeat constructor. discriminate.
Defined.

(** ** Host enrollment: rejections *)
Section HostRejections.
Context {T : Types} {P : Platform T}.

(** C6. A host enrollment whose connection has no verified chain is
    answered 401; one whose first leaf does not validate for the claimed
    hostname is answered 403; neither reaches the ledger. *)
Theorem host_enrollment_rejections (c : Api) (r : Request) (w : World)
    (conn : ConnectionState) :
  fresh w →
  TLS r = Some conn →
  (VerifiedChains conn = [] →
     ∃ w', Enroll c r w = (Done tt, w') ∧
           status (response w') = Some StatusUnauthorized ∧
           noLedgerWrite w w') ∧
  (∀ leaf rest chains,
     VerifiedChains conn = (leaf :: rest) :: chains →
     VerifyHostname leaf (default EmptyString (Vars r !! "hostname")) ≠ None →
     ∃ w', Enroll c r w = (Done tt, w') ∧
           status (response w') = Some StatusForbidden ∧
           noLedgerWrite w w').
Proof.
  intros Hfresh Htls. split.
  - intros Hchains. unfold Enroll, bind, lift.
    rewrite (clientAuthenticated_empty r conn Htls Hchains). simpl.
    destruct (http_Error_run "no client certificate provided" StatusUnauthorized w)
      as (rs & -> & Hst & _).
    eexists. split; [reflexivity|]. simpl. split.
    + apply Hst. now rewrite Hfresh.
    + split; reflexivity.
  - intros leaf rest chains Hchains Hmismatch. unfold Enroll, bind, lift.
    rewrite (clientAuthenticated_chain r conn _ _ Htls Hchains). simpl.
    rewrite (clientHostnameMatches_leaf _ r conn leaf rest chains Htls Hchains).
    rewrite bool_decide_eq_false_2 by assumption. simpl.
    destruct (http_Error_run "hostname does not match certificate" StatusForbidden w)
      as (rs & -> & Hst & _).
    eexists. split; [reflexivity|]. simpl. split.
    + apply Hst. now rewrite Hfresh.
    + split; reflexivity.
Qed.

End HostRejections.

(** The anonymous sample request is refused with 401, and a peer holding a
    certificate for another name with 403; the ledger script is untouched. *)
Lemma host_enrollment_rejections_witness :
  (∃ w', Enroll Sample.api Sample.anonymousRequest (Sample.world [Ok 7]) = (Done tt, w') ∧
         status (response w') = Some StatusUnauthorized ∧
         noLedgerWrite (Sample.world [Ok 7]) w') ∧
  (∃ w', Enroll Sample.api
           (Sample.request ["other.example.com"] {[ "hostname" := "host.example.com" ]}
              ∅ (Ok Sample.key))
           (Sample.world [Ok 7]) = (Done tt, w') ∧
         status (response w') = Some StatusForbidden ∧
         noLedgerWrite (Sample.world [Ok 7]) w').
Proof.
  split.
  - destruct (host_enrollment_rejections Sample.api Sample.anonymousRequest
                (Sample.world [Ok 7]) Sample.nobody eq_refl eq_refl)
      as [Hnone _].
    exact (Hnone eq_refl).
  - destruct (host_enrollment_rejections Sample.api
                (Sample.request ["other.example.com"]
                   {[ "hostname" := "host.example.com" ]} ∅ (Ok Sample.key))
                (Sample.world [Ok 7]) (Sample.peer ["other.example.com"])
                eq_refl eq_refl)
      as [_ Hmismatch].
    apply (Hmismatch ["other.example.com"] [] [] eq_refl).
    vm_compute. discriminate.
Defined.

(** ** User enrollment: proxy authorization *)
Section Proxy.
Context {T : Types} {P : Platform T}.

(** A refusal by [proxyAuthenticated] ends [EnrollUser] with the status the
    refusal wrote and nothing but a log line added. *)
Lemma EnrollUser_refused (c : Api) (r : Request) (w : World) err code :
  proxyAuthenticated (config.AuthenticatingProxy_ (conf c)) r w =
    (logHttpError r err code ;;; ret (EmptyString, false)) w →
  fresh w →
  ∃ w', EnrollUser c r w = (Done tt, w') ∧
        status (response w') = Some code ∧
        noLedgerWrite w w' ∧ noSigning w w'.
Proof.
  intros Hauth Hfresh. unfold EnrollUser. unfold bind at 1. rewrite Hauth.
  destruct (logHttpError_run r err code w) as (rs & entry & Hlog & Hst & _).
  unfold bind at 1. rewrite Hlog. simpl.
  eexists. split; [reflexivity|]. split; [|split].
  - simpl. apply Hst. now rewrite Hfresh.
  - now apply noLedgerWrite_events with [EvLog entry].
  - now apply noSigning_events with [EvLog entry].
Qed.

(** When [proxyAuthenticated] accepts, all three conditions hold, the world
    is as it was, and the user is the non-empty header value. *)
Lemma proxyAuthenticated_accepts (ap : option config.AuthenticatingProxy)
    (r : Request) (w w' : World) user :
  proxyAuthenticated ap r w = (Done (user, true), w') →
  w' = w ∧ user ≠ EmptyString ∧
  ∃ a conn, ap = Some a ∧ TLS r = Some conn ∧ fromProxy a conn ∧
            user = Header_Get (Header r) (config.UsernameHeader a).
Proof.
  unfold proxyAuthenticated. destruct ap as [a|].
  - unfold bind at 1, lift at 1, clientAuthenticated, clientHostnameMatches.
    destruct (TLS r) as [conn|]; [|discriminate].
    destruct (VerifiedChains conn) as [|[|leaf rest] chains] eqn:Hchains; simpl.
    + unfold bind, ret. simpl. discriminate.
    + unfold bind, lift. simpl. discriminate.
    + unfold bind at 1, lift at 1.
      destruct (bool_decide (VerifyHostname leaf (config.Hostname a) = None)) eqn:Hv; simpl.
      * destruct (bool_decide (Header_Get (Header r) (config.UsernameHeader a) = EmptyString))
          eqn:Hu.
        -- unfold bind, ret. simpl. discriminate.
        -- unfold ret. intros [= <- <-]. apply bool_decide_eq_false in Hu.
           apply bool_decide_eq_true in Hv.
           split; [reflexivity|]. split; [assumption|].
           exists a, conn. repeat split. exists leaf, rest, chains. auto.
      * unfold bind, ret. simpl. discriminate.
  - unfold bind, ret. simpl. discriminate.
Qed.

(** C7. [EnrollUser] answers 404 when no proxy is configured, 401 when the
    connection does not authenticate as the configured proxy hostname, and
    401 when the configured header is absent or empty; none of these runs
    reaches the ledger or the signer. [proxyAuthenticated] accepts only
    when a proxy is configured, the connection authenticates as it and the
    header value is not empty. *)
Theorem proxy_authorization (c : Api) (r : Request) (w : World) :
  fresh w →
  (config.AuthenticatingProxy_ (conf c) = None →
     ∃ w', EnrollUser c r w = (Done tt, w') ∧
           status (response w') = Some StatusNotFound ∧
           noLedgerWrite w w' ∧ noSigning w w') ∧
  (∀ ap conn,
     config.AuthenticatingProxy_ (conf c) = Some ap →
     TLS r = Some conn →
     (VerifiedChains conn = [] ∨
      ∃ leaf rest chains, VerifiedChains conn = (leaf :: rest) :: chains ∧
                          VerifyHostname leaf (config.Hostname ap) ≠ None) →
     ∃ w', EnrollUser c r w = (Done tt, w') ∧
           status (response w') = Some StatusUnauthorized ∧
           noLedgerWrite w w' ∧ noSigning w w') ∧
  (∀ ap conn,
     config.AuthenticatingProxy_ (conf c) = Some ap →
     TLS r = Some conn →
     fromProxy ap conn →
     Header_Get (Header r) (config.UsernameHeader ap) = EmptyString →
     ∃ w', EnrollUser c r w = (Done tt, w') ∧
           status (response w') = Some StatusUnauthorized ∧
           noLedgerWrite w w' ∧ noSigning w w') ∧
  (∀ user w',
     proxyAuthenticated (config.AuthenticatingProxy_ (conf c)) r w = (Done (user, true), w') →
     user ≠ EmptyString ∧
     ∃ ap conn, config.AuthenticatingProxy_ (conf c) = Some ap ∧
                TLS r = Some conn ∧ fromProxy ap conn ∧
                user = Header_Get (Header r) (config.UsernameHeader ap)).
Proof.
  intros Hfresh. split; [|split; [|split]].
  - intros Hap.
    apply (EnrollUser_refused c r w "client certificates are unavailable" StatusNotFound);
      [|assumption].
    now rewrite Hap.
  - intros ap conn Hap Htls Hbad.
    apply (EnrollUser_refused c r w "request didn't come from proxy" StatusUnauthorized);
      [|assumption].
    rewrite Hap. unfold proxyAuthenticated.
    destruct Hbad as [Hchains | (leaf & rest & chains & Hchains & Hv)].
    + unfold bind at 1, lift at 1.
      rewrite (clientAuthenticated_empty r conn Htls Hchains). reflexivity.
    + unfold bind at 1, lift at 1.
      rewrite (clientAuthenticated_chain r conn _ _ Htls Hchains).
      unfold bind at 1, lift at 1.
      rewrite (clientHostnameMatches_leaf _ r conn leaf rest chains Htls Hchains).
      now rewrite bool_decide_eq_false_2 by assumption.
  - intros ap conn Hap Htls (leaf & rest & chains & Hchains & Hv) Hheader.
    apply (EnrollUser_refused c r w "no username supplied" StatusUnauthorized);
      [|assumption].
    rewrite Hap. unfold proxyAuthenticated.
    unfold bind at 1, lift at 1.
    rewrite (clientAuthenticated_chain r conn _ _ Htls Hchains).
    unfold bind at 1, lift at 1.
    rewrite (clientHostnameMatches_leaf _ r conn leaf rest chains Htls Hchains).
    rewrite bool_decide_eq_true_2 by assumption. simpl.
    now rewrite bool_decide_eq_true_2 by assumption.
  - intros user w' Hauth.
    apply proxyAuthenticated_accepts in Hauth as (_ & Hne & a & conn & ? & ? & ? & ?).
    split; [assumption|]. exists a, conn. auto.
Qed.

End Proxy.

(** The four situations on the sample deployment: no proxy configured, a
    peer that is not the proxy, the proxy without a user name, and the
    proxy forwarding alice. *)
Lemma proxy_authorization_witness :
  (∃ w', EnrollUser Sample.apiWithoutProxy (Sample.proxyRequest "alice" (Ok Sample.key))
           (Sample.world [Ok 7]) = (Done tt, w') ∧
         status (response w') = Some StatusNotFound ∧
         noLedgerWrite (Sample.world [Ok 7]) w' ∧ noSigning (Sample.world [Ok 7]) w') ∧
  (∃ w', EnrollUser Sample.api
           (Sample.request ["host.example.com"] ∅ {[ "X-Forwarded-User" := ["alice"] ]}
              (Ok Sample.key))
           (Sample.world [Ok 7]) = (Done tt, w') ∧
         status (response w') = Some StatusUnauthorized ∧
         noLedgerWrite (Sample.world [Ok 7]) w' ∧ noSigning (Sample.world [Ok 7]) w') ∧
  (∃ w', EnrollUser Sample.api (Sample.proxyRequest EmptyString (Ok Sample.key))
           (Sample.world [Ok 7]) = (Done tt, w') ∧
         status (response w') = Some StatusUnauthorized ∧
         noLedgerWrite (Sample.world [Ok 7]) w' ∧ noSigning (Sample.world [Ok 7]) w') ∧
  (proxyAuthenticated (config.AuthenticatingProxy_ Sample.configuration)
     (Sample.proxyRequest "alice" (Ok Sample.key)) (Sample.world [Ok 7]) =
     (Done ("alice", true), Sample.world [Ok 7]) ∧
   "alice" ≠ EmptyString).
Proof.
  split; [|split; [|split]].
  - destruct (proxy_authorization Sample.apiWithoutProxy
                (Sample.proxyRequest "alice" (Ok Sample.key)) (Sample.world [Ok 7]) eq_refl)
      as (Hnone & _).
    exact (Hnone eq_refl).
  - destruct (proxy_authorization Sample.api
                (Sample.request ["host.example.com"] ∅
                   {[ "X-Forwarded-User" := ["alice"] ]} (Ok Sample.key))
                (Sample.world [Ok 7]) eq_refl)
      as (_ & Hpeer & _).
    apply (Hpeer _ (Sample.peer ["host.example.com"]) eq_refl eq_refl).
    right. exists ["host.example.com"], [], []. split; [reflexivity|].
    vm_compute. discriminate.
  - destruct (proxy_authorization Sample.api
                (Sample.proxyRequest EmptyString (Ok Sample.key))
                (Sample.world [Ok 7]) eq_refl)
      as (_ & _ & Hheader & _).
    apply (Hheader _ (Sample.peer ["proxy.example.com"]) eq_refl eq_refl).
    + exists ["proxy.example.com"], [], []. split; reflexivity.
    + reflexivity.
  - destruct (proxy_authorization Sample.api
                (Sample.proxyRequest "alice" (Ok Sample.key))
                (Sample.world [Ok 7]) eq_refl)
      as (_ & _ & _ & Haccept).
    run_as Hrun (proxyAuthenticated (config.AuthenticatingProxy_ Sample.configuration)
                   (Sample.proxyRequest "alice" (Ok Sample.key)) (Sample.world [Ok 7])).
    split; [exact Hrun|]. exact (proj1 (Haccept _ _ Hrun)).
Defined.

(** ** Serial numbers and user principals *)
Section Issuance.
Context {T : Types} {P : Platform T}.

(** On every way through the two shared steps the signer sees the serial
    the ledger returned; a certificate comes out of the last way only. *)
Lemma issuance_serial (c : Api) certType identity principals pubkey (w : World)
    cert s evs :
  issuance c certType identity principals pubkey w cert s evs →
  serialDiscipline evs ∧
  (∀ template res, EvSignCert template res ∈ evs →
     ValidPrincipals template = principals ∧ KeyId template = identity ∧
     CertType template = certType) ∧
  (∀ signed, cert = Ok signed →
     ∃ id template sg,
       RecordIssuance (storage w) certType identity pubkey = (s, Ok id) ∧
       evs = [EvRecordIssuance certType identity pubkey (Ok id);
              EvSignCert template (Ok sg)] ∧
       signed = withSignature template sg ∧
       Serial signed = id).
Proof.
  intros [s' err Hrec | s' id err Hrec | s' id nonce d sres Hrec Hd].
  - split; [|split].
    + intros template res Hin. apply list_elem_of_singleton in Hin. discriminate.
    + intros template res Hin. apply list_elem_of_singleton in Hin. discriminate.
    + intros signed [=].
  - split; [|split].
    + intros template res Hin. apply list_elem_of_singleton in Hin. discriminate.
    + intros template res Hin. apply list_elem_of_singleton in Hin. discriminate.
    + intros signed [=].
  - split; [|split].
    + intros template res Hin.
      apply elem_of_cons in Hin as [[=]|Hin].
      apply list_elem_of_singleton in Hin. injection Hin as -> ->.
      exists certType, identity, pubkey. reflexivity.
    + intros template res Hin.
      apply elem_of_cons in Hin as [[=]|Hin].
      apply list_elem_of_singleton in Hin. injection Hin as -> ->. auto.
    + intros signed Hsigned. destruct sres as [sg|msg]; [|discriminate].
      injection Hsigned as <-.
      eexists id, _, sg. repeat split; [exact Hrec|].
      now destruct sg as [[? ?] ?].
Qed.

(** Log lines do not disturb the discipline. *)
Lemma serialDiscipline_log (evs : list Event) (entry : LogEntry) :
  serialDiscipline evs → serialDiscipline (evs ++ [EvLog entry]).
Proof.
  intros Hd template res Hin.
  apply elem_of_app in Hin as [Hin|Hin].
  - destruct (Hd template res Hin) as (ct & ident & pk & Hcalls).
    exists ct, ident, pk. rewrite ledgerCalls_app, Hcalls. reflexivity.
  - apply list_elem_of_singleton in Hin. discriminate.
Qed.

Lemma serialDiscipline_quiet (evs : list Event) :
  signCalls evs = [] → serialDiscipline evs.
Proof.
  intros Hquiet template res Hin.
  assert (EvSignCert template res ∈ signCalls evs) as Hs.
  { apply list_elem_of_In, List.filter_In. split; [now apply list_elem_of_In | reflexivity]. }
  rewrite Hquiet in Hs. now apply elem_of_nil in Hs.
Qed.

(** What [EnrollUser] answers once the two shared steps are done. *)
Lemma respondUser_run (r : Request) user pk cert (w1 : World) :
  ∃ rs entry,
    respondUser r user pk cert w1 =
      (Done tt, {| storage := storage w1; entropy := entropy w1; clock := clock w1;
                   response := rs; journal := journal w1 ++ [EvLog entry] |}) ∧
    match cert with
    | Ok signed =>
        ∃ out, encodeCert signed = Ok out ∧
               (status (response w1) = None → status rs = Some StatusOK) ∧
               written rs = written (response w1) +:+ out
    | Err err =>
        (status (response w1) = None → status rs = Some StatusInternalServerError) ∧
        written rs = written (response w1) +:+ err +:+ newline
    end.
Proof.
  destruct cert as [signed|err]; simpl.
  - eexists _, _. split; [reflexivity|]. eexists. split; [reflexivity|]. simpl.
    split; [|reflexivity]. intros ->. reflexivity.
  - destruct (logHttpError_run r err StatusInternalServerError w1)
      as (rs & entry & -> & Hst & Hbody).
    exists rs, entry. auto.
Qed.

(** The ways [proxyAuthenticated] can end. *)
Lemma proxyAuthenticated_cases (ap : option config.AuthenticatingProxy)
    (r : Request) (w : World) :
  (∃ msg, proxyAuthenticated ap r w = (Panic msg, w)) ∨
  (∃ user, proxyAuthenticated ap r w = (Done (user, true), w)) ∨
  (∃ err code, (code = StatusNotFound ∨ code = StatusUnauthorized) ∧
                proxyAuthenticated ap r w =
                  (logHttpError r err code ;;; ret (EmptyString, false)) w).
Proof.
  unfold proxyAuthenticated. destruct ap as [a|].
  - unfold bind at 1, lift at 1, clientAuthenticated, clientHostnameMatches.
    destruct (TLS r) as [conn|]; [|left; eexists; reflexivity].
    destruct (VerifiedChains conn) as [|[|leaf rest] chains]; simpl.
    + right; right. exists "request didn't come from proxy", StatusUnauthorized.
      split; [right; reflexivity | reflexivity].
    + left. eexists. reflexivity.
    + unfold bind at 1, lift at 1.
      destruct (bool_decide (VerifyHostname leaf (config.Hostname a) = None)); simpl.
      * destruct (bool_decide (Header_Get (Header r) (config.UsernameHeader a) = EmptyString)).
        -- right; right. exists "no username supplied", StatusUnauthorized.
           split; [right; reflexivity | reflexivity].
        -- right; left. eexists. reflexivity.
      * right; right. exists "request didn't come from proxy", StatusUnauthorized.
        split; [right; reflexivity | reflexivity].
  - right; right. exists "client certificates are unavailable", StatusNotFound.
    split; [left; reflexivity | reflexivity].
Qed.

(** Every run of [EnrollUser]: either it stops before the ledger, leaving
    at most a log line, or it goes through the two shared steps for the
    forwarded user and then answers. *)
Lemma EnrollUser_cases (c : Api) (r : Request) (w w' : World) o :
  EnrollUser c r w = (o, w') →
  (∃ logs, journal w' = journal w ++ logs ∧ signCalls logs = [] ∧
           (status (response w) = None → status (response w') ≠ Some StatusOK)) ∨
  (∃ ap user pk cert s evs entry,
     config.AuthenticatingProxy_ (conf c) = Some ap ∧
     user = Header_Get (Header r) (config.UsernameHeader ap) ∧
     issuance c ssh.UserCert user [user] pk w cert s evs ∧
     storage w' = s ∧
     journal w' = journal w ++ evs ++ [EvLog entry] ∧
     match cert with
     | Ok signed =>
         ∃ out, encodeCert signed = Ok out ∧
                written (response w') = written (response w) +:+ out
     | Err err => status (response w) = None →
                  status (response w') = Some StatusInternalServerError
     end).
Proof.
  intros Hrun.
  destruct (proxyAuthenticated_cases (config.AuthenticatingProxy_ (conf c)) r w)
    as [[msg Hauth] | [[user Hauth] | (err & code & Hcode & Hauth)]].
  - left. unfold EnrollUser in Hrun. unfold bind at 1 in Hrun. rewrite Hauth in Hrun.
    injection Hrun as _ <-. exists []. rewrite app_nil_r.
    split; [reflexivity|]. split; [reflexivity|]. intros ->. discriminate.
  - destruct (readPubkey r) as [pk|err] eqn:Hkey.
    + right.
      destruct (EnrollUser_run c r w user pk Hauth Hkey)
        as (cert & s & e & evs & Hiss & Heq).
      rewrite Heq in Hrun.
      destruct (respondUser_run r user pk cert (after w s e evs))
        as (rs & entry & Hresp & Hbody).
      rewrite Hresp in Hrun. injection Hrun as _ <-.
      apply proxyAuthenticated_accepts in Hauth
        as (_ & _ & a & conn & Hap & _ & _ & Huser).
      exists a, user, pk, cert, s, evs, entry. simpl.
      split; [exact Hap|]. split; [exact Huser|]. split; [exact Hiss|].
      split; [reflexivity|]. split; [now rewrite app_assoc|].
      destruct cert as [signed|err].
      * destruct Hbody as (out & Henc & _ & Hw). eauto.
      * destruct Hbody as [Hst _]. exact Hst.
    + left. unfold EnrollUser in Hrun. unfold bind at 1 in Hrun.
      rewrite Hauth in Hrun. simpl in Hrun. rewrite Hkey in Hrun.
      destruct (logHttpError_run r err StatusBadRequest w)
        as (rs & entry & Hlog & Hst & _).
      rewrite Hlog in Hrun. injection Hrun as _ <-. simpl.
      exists [EvLog entry]. split; [reflexivity|]. split; [reflexivity|].
      intros Hnone. rewrite (Hst Hnone). discriminate.
  - left. unfold EnrollUser in Hrun. unfold bind at 1 in Hrun. rewrite Hauth in Hrun.
    destruct (logHttpError_run r err code w) as (rs & entry & Hlog & Hst & _).
    unfold bind at 1 in Hrun. rewrite Hlog in Hrun. simpl in Hrun.
    injection Hrun as _ <-. simpl.
    exists [EvLog entry]. split; [reflexivity|]. split; [reflexivity|].
    intros Hnone. rewrite (Hst Hnone).
    destruct Hcode as [-> | ->]; discriminate.
Qed.

(** C1. In both flows every certificate handed to the signer carries the
    serial returned by the one [RecordIssuance] call of the same request;
    when [EnrollHost] returns a certificate line, or [EnrollUser] answers
    200, the line encodes a signed certificate whose serial is the value
    that call returned. *)
Theorem issued_serial_is_ledger_serial (c : Api) (r : Request) (w : World) :
  (∀ hostname o w',
     EnrollHost c hostname r w = (o, w') →
     ∃ evs, journal w' = journal w ++ evs ∧ serialDiscipline evs ∧
       ∀ out, o = Done (Ok out) →
         ∃ pk id template sg,
           RecordIssuance (storage w) ssh.HostCert hostname pk = (storage w', Ok id) ∧
           evs = [EvRecordIssuance ssh.HostCert hostname pk (Ok id);
                  EvSignCert template (Ok sg)] ∧
           Serial template = id ∧
           Serial (withSignature template sg) = id ∧
           encodeCert (withSignature template sg) = Ok out) ∧
  (∀ o w',
     EnrollUser c r w = (o, w') →
     ∃ evs, journal w' = journal w ++ evs ∧ serialDiscipline evs ∧
       (fresh w → status (response w') = Some StatusOK →
        ∃ user pk id template sg,
          RecordIssuance (storage w) ssh.UserCert user pk = (storage w', Ok id) ∧
          ledgerCalls evs = [EvRecordIssuance ssh.UserCert user pk (Ok id)] ∧
          signCalls evs = [EvSignCert template (Ok sg)] ∧
          Serial template = id ∧
          Serial (withSignature template sg) = id ∧
          encodeCert (withSignature template sg) = Ok (written (response w')))).
Proof.
  split.
  - intros hostname o w' Hrun.
    destruct (readPubkey r) as [pk|err] eqn:Hkey.
    + destruct (EnrollHost_run c hostname r w pk Hkey)
        as (cert & s & e & evs & Hiss & Heq).
      rewrite Heq in Hrun. injection Hrun as <- <-.
      destruct (issuance_serial _ _ _ _ _ _ _ _ _ Hiss) as (Hdisc & _ & Hok).
      exists evs. split; [reflexivity|]. split; [exact Hdisc|].
      intros out Hout. destruct cert as [signed|err]; [|discriminate].
      assert (encodeCert signed = Ok out) as Henc by congruence. clear Hout.
      destruct (Hok signed eq_refl) as (id & template & sg & Hrec & -> & -> & Hserial).
      exists pk, id, template, sg. simpl.
      assert (Serial template = id) as Ht
        by (rewrite <- Hserial; now destruct sg as [[? ?] ?]).
      repeat split; assumption.
    + rewrite (EnrollHost_bad_key c hostname r w err Hkey) in Hrun.
      injection Hrun as <- <-. exists []. rewrite app_nil_r.
      split; [reflexivity|]. split; [now apply serialDiscipline_quiet|].
      intros out [=].
  - intros o w' Hrun.
    destruct (EnrollUser_cases c r w w' o Hrun)
      as [(logs & Hj & Hquiet & Hst) |
          (ap & user & pk & cert & s & evs & entry & _ & _ & Hiss & Hs & Hj & Hresp)].
    + exists logs. split; [exact Hj|]. split; [now apply serialDiscipline_quiet|].
      intros Hfresh Hok. exfalso. apply Hst; [now rewrite Hfresh | exact Hok].
    + destruct (issuance_serial _ _ _ _ _ _ _ _ _ Hiss) as (Hdisc & _ & Hok).
      exists (evs ++ [EvLog entry]). split; [exact Hj|].
      split; [now apply serialDiscipline_log|].
      intros Hfresh Hstatus. destruct cert as [signed|err].
      * destruct Hresp as (out & Henc & Hw).
        destruct (Hok signed eq_refl) as (id & template & sg & Hrec & -> & -> & Hserial).
        exists user, pk, id, template, sg. rewrite Hs.
        assert (Serial template = id) as Ht
          by (rewrite <- Hserial; now destruct sg as [[? ?] ?]).
        rewrite Hw, Hfresh. simpl. auto 10.
      * rewrite Hresp in Hstatus by (now rewrite Hfresh). discriminate.
Qed.

(** C3. Every certificate [EnrollUser] hands to the signer, and so every
    certificate it returns, lists as its only principal the user name the
    proxy forwarded, whatever suffix and aliases are configured. *)
Theorem user_principals_exact (c : Api) (r : Request) (w w' : World) o :
  EnrollUser c r w = (o, w') →
  ∃ evs, journal w' = journal w ++ evs ∧
    ∀ template res,
      EvSignCert template res ∈ evs →
      ∃ ap, config.AuthenticatingProxy_ (conf c) = Some ap ∧
            ValidPrincipals template =
              [Header_Get (Header r) (config.UsernameHeader ap)] ∧
            CertType template = ssh.UserCert ∧
            ∀ sg, ValidPrincipals (withSignature template sg) =
                    [Header_Get (Header r) (config.UsernameHeader ap)].
Proof.
  intros Hrun.
  destruct (EnrollUser_cases c r w w' o Hrun)
    as [(logs & Hj & Hquiet & _) |
        (ap & user & pk & cert & s & evs & entry & Hap & Huser & Hiss & _ & Hj & _)].
  - exists logs. split; [exact Hj|]. intros template res Hin. exfalso.
    assert (EvSignCert template res ∈ signCalls logs) as Hs.
    { apply list_elem_of_In, List.filter_In.
      split; [now apply list_elem_of_In | reflexivity]. }
    rewrite Hquiet in Hs. now apply elem_of_nil in Hs.
  - destruct (issuance_serial _ _ _ _ _ _ _ _ _ Hiss) as (_ & Hprinc & _).
    exists (evs ++ [EvLog entry]). split; [exact Hj|].
    intros template res Hin.
    apply elem_of_app in Hin as [Hin|Hin];
      [|apply list_elem_of_singleton in Hin; discriminate].
    destruct (Hprinc template res Hin) as (Hp & _ & Hct).
    exists ap. split; [exact Hap|]. rewrite <- Huser.
    split; [exact Hp|]. split; [exact Hct|].
    intros [[? ?] ?]. exact Hp.
Qed.

End Issuance.

(** The sample host enrollment with a ledger answering 7, and the sample
    user enrollment with a ledger answering 8. *)
Lemma issued_serial_is_ledger_serial_witness :
  (∃ out w' template sg,
     EnrollHost Sample.api "host.example.com" (Sample.hostRequest (Ok Sample.key))
       (Sample.world [Ok 7]) = (Done (Ok out), w') ∧
     journal w' = [EvRecordIssuance ssh.HostCert "host.example.com" Sample.key (Ok 7);
                   EvSignCert template (Ok sg)] ∧
     Serial (withSignature template sg) = 7) ∧
  (∃ w' template sg,
     EnrollUser Sample.api (Sample.proxyRequest "alice" (Ok Sample.key))
       (Sample.world [Ok 8]) = (Done tt, w') ∧
     signCalls (journal w') = [EvSignCert template (Ok sg)] ∧
     Serial (withSignature template sg) = 8).
Proof.
  split.
  - run_as Hrun (EnrollHost Sample.api "host.example.com"
                   (Sample.hostRequest (Ok Sample.key)) (Sample.world [Ok 7])).
    destruct (proj1 (issued_serial_is_ledger_serial Sample.api
                       (Sample.hostRequest (Ok Sample.key)) (Sample.world [Ok 7]))
                _ _ _ Hrun) as (evs & Hj & _ & Hok).
    destruct (Hok _ eq_refl) as (pk & id & template & sg & Hrec & -> & _ & Hs & _).
    simpl in Hj. revert Hs. simplify_eq. intros Hs.
    eexists _, _, _, _. split; [exact Hrun|]. split; [reflexivity|]. exact Hs.
  - run_as Hrun (EnrollUser Sample.api (Sample.proxyRequest "alice" (Ok Sample.key))
                   (Sample.world [Ok 8])).
    destruct (proj2 (issued_serial_is_ledger_serial Sample.api
                       (Sample.proxyRequest "alice" (Ok Sample.key)) (Sample.world [Ok 8]))
                _ _ Hrun) as (evs & Hj & _ & Hok).
    destruct (Hok eq_refl eq_refl)
      as (user & pk & id & template & sg & Hrec & _ & Hsig & _ & Hs & _).
    simpl in Hj. subst evs. cbv in Hrec. revert Hs Hsig. simplify_eq. intros Hs Hsig.
    eexists _, template, sg. split; [exact Hrun|]. split; [exact Hsig|]. exact Hs.
Defined.

(** A user whose name is also an alias key and ends with the configured
    suffix still gets that name as the only principal. *)
Lemma user_principals_exact_witness :
  ∃ w' template sg,
    EnrollUser Sample.api (Sample.proxyRequest "host.example.com" (Ok Sample.key))
      (Sample.world [Ok 9]) = (Done tt, w') ∧
    EvSignCert template (Ok sg) ∈ journal w' ∧
    ValidPrincipals (withSignature template sg) = ["host.example.com"].
Proof.
  assert (∃ w' template sg,
            EnrollUser Sample.api (Sample.proxyRequest "host.example.com" (Ok Sample.key))
              (Sample.world [Ok 9]) = (Done tt, w') ∧
            EvSignCert template (Ok sg) ∈ journal w')
    as (w' & template & sg & Hrun & Hin).
  { eexists _, _, _. split; [vm_compute; reflexivity|].
    simpl. apply elem_of_cons. right. apply elem_of_cons. left. reflexivity. }
  destruct (user_principals_exact Sample.api _ _ _ _ Hrun) as (evs & Hj & Hall).
  simpl in Hj. rewrite Hj in Hin.
  destruct (Hall template (Ok sg) Hin) as (ap & Hap & _ & _ & Hsigned).
  injection Hap as <-.
  exists w', template, sg. split; [exact Hrun|]. split; [now rewrite Hj|].
  apply Hsigned.
Defined.

(** ** Validity window *)
Section Validity.
Context {T : Types} {P : Platform T}.

(** Adding a whole number of seconds moves the Unix time by that number. *)
Lemma time_Unix_Add_whole (t d : Z) :
  d mod 1000000000 = 0 →
  time_Unix (time_Add t d) = time_Unix t + d / 1000000000.
Proof.
  intros Hwhole. unfold time_Unix, time_Add.
  rewrite (Z.div_mod d 1000000000) at 1 by lia.
  rewrite Hwhole, Z.add_0_r, (Z.mul_comm 1000000000).
  apply Z.div_add. lia.
Qed.

Lemma uint64_small (x : Z) : 0 ≤ x < 2 ^ 64 → uint64 x = x.
Proof. intros Hx. unfold uint64. now apply Z.mod_small. Qed.

(** C5, as the code has it. A certificate that [sign] returns has as
    [ValidAfter] the Unix seconds of the time read, rounded down, and as
    [ValidBefore] the Unix seconds of that time plus the configured
    duration, both as [uint64]. When the duration is a whole number of
    seconds and both times are representable, [ValidAfter] is the time
    read in whole seconds and [ValidBefore - ValidAfter] is the duration:
    604800 seconds when the duration is 168 hours. *)
Theorem validity_window (c : Api) keyId principals serial certType pubkey
    (w w' : World) cert d :
  sign c keyId principals serial certType pubkey w = (Done (Ok cert), w') →
  getDurationForCertType (conf c) certType = Ok d →
  ValidAfter cert = uint64 (time_Unix (clock w)) ∧
  ValidBefore cert = uint64 (time_Unix (clock w + d)) ∧
  (d mod 1000000000 = 0 →
   representable (clock w) → representable (clock w + d) →
   ValidAfter cert = time_Unix (clock w) ∧
   ValidBefore cert - ValidAfter cert = d / 1000000000 ∧
   (d = 168 * 3600 * 1000000000 → ValidBefore cert - ValidAfter cert = 168 * 3600)).
Proof.
  intros (nonce & d' & sg & Hd' & -> & _)%sign_Ok Hd.
  rewrite Hd in Hd'. injection Hd' as <-.
  destruct sg as [[? ?] ?]. simpl. fold (time_Add (clock w) d).
  split; [reflexivity|]. split; [reflexivity|].
  intros Hwhole Hnow Hend. unfold representable in *.
  rewrite !uint64_small by assumption.
  rewrite time_Unix_Add_whole by assumption.
  split; [reflexivity|]. split; [lia|].
  intros ->. replace (168 * 3600 * 1000000000 / 1000000000) with (168 * 3600)
    by (symmetry; apply Z.div_mul; lia).
  lia.
Qed.

End Validity.

(** On the sample deployment, [host_cert_duration: 168h] gives a host
    certificate valid for 604800 seconds from the second of the request. *)
Lemma validity_window_witness :
  ∃ cert w',
    sign Sample.api "host.example.com" ["host.example.com"] 7 ssh.HostCert Sample.key
      (Sample.world []) = (Done (Ok cert), w') ∧
    ValidAfter cert = 1767225600 ∧
    ValidBefore cert - ValidAfter cert = 168 * 3600.
Proof.
  assert (∃ cert w',
            sign Sample.api "host.example.com" ["host.example.com"] 7 ssh.HostCert
              Sample.key (Sample.world []) = (Done (Ok cert), w'))
    as (cert & w' & Hrun) by (eexists _, _; vm_compute; reflexivity).
  assert (getDurationForCertType (conf Sample.api) ssh.HostCert =
            Ok (168 * 3600 * 1000000000)) as Hd by (vm_compute; reflexivity).
  destruct (validity_window _ _ _ _ _ _ _ _ _ _ Hrun Hd) as (_ & _ & Hwindow).
  destruct Hwindow as (Hafter & _ & Hhours).
  - vm_compute; reflexivity.
  - unfold representable. vm_compute. split; [discriminate | reflexivity].
  - unfold representable. vm_compute. split; [discriminate | reflexivity].
  - exists cert, w'. split; [exact Hrun|]. split; [exact Hafter|]. now apply Hhours.
Defined.

(** C5 as stated fails: with [host_cert_duration: 1500ms], which parses, a
    request at 0.6 s past the second gets a certificate whose window is 2
    seconds long, not 1.5, and whose [ValidAfter] is not the time read. *)
Lemma validity_window_counterexample :
  ∃ cert w' d,
    sign Sample.apiSubSecond "host.example.com" ["host.example.com"] 7 ssh.HostCert
      Sample.key (Sample.world []) = (Done (Ok cert), w') ∧
    getDurationForCertType (conf Sample.apiSubSecond) ssh.HostCert = Ok d ∧
    ¬ (ValidAfter cert * 1000000000 = clock (Sample.world []) ∧
       (ValidBefore cert - ValidAfter cert) * 1000000000 = d) ∧
    (ValidBefore cert - ValidAfter cert) * 1000000000 ≠ d.
Proof.
  eexists _, _, _. split; [vm_compute; reflexivity|].
  split; [vm_compute; reflexivity|].
  split; [intros [_ Hlen]|]; vm_compute; discriminate.
Defined.

(** ** Internal failures and malformed keys *)
Section Failures.
Context {T : Types} {P : Platform T}.

(** A failure inside the pipeline hands its error to whatever follows the
    two shared steps. *)
Lemma failing_issuance (c : Api) certType identity principals pubkey (w : World) err :
  internalFailure c certType identity principals pubkey w err →
  ∃ s e evs,
    ∀ (A : Type) (k : result (Certificate PublicKey Signature_) → M A)
      (kerr : string → M A),
      (∀ err, kerr err = k (Err err)) →
      (id <- storage_RecordIssuance certType identity pubkey ;;
       match id with
       | Err err => kerr err
       | Ok id =>
           signed <- sign c identity principals id certType pubkey ;; k signed
       end) w = k (Err err) (after w s e evs).
Proof.
  intros [[s Hrec] | (s & id & w1 & Hrec & Hsign)].
  - exists s, (entropy w), [EvRecordIssuance certType identity pubkey (Err err)].
    intros A k kerr Hk.
    unfold bind, storage_RecordIssuance. rewrite Hrec. now rewrite Hk.
  - destruct (sign_run c identity principals id certType pubkey
                (after w s (entropy w) [EvRecordIssuance certType identity pubkey (Ok id)]))
      as (e & evs & o & Hrun & _).
    rewrite Hrun in Hsign. injection Hsign as -> _.
    exists s, e, ([EvRecordIssuance certType identity pubkey (Ok id)] ++ evs).
    intros A k kerr Hk.
    unfold bind at 1, storage_RecordIssuance. rewrite Hrec.
    unfold bind. unfold after in Hrun. simpl in Hrun. rewrite Hrun.
    unfold after. simpl. now rewrite <- app_assoc.
Qed.

(** Past the transport checks, [Enroll] is [EnrollHost] and its answer. *)
Lemma Enroll_authorized (c : Api) (r : Request) (w : World) conn leaf rest chains :
  TLS r = Some conn →
  VerifiedChains conn = (leaf :: rest) :: chains →
  VerifyHostname leaf (default EmptyString (Vars r !! "hostname")) = None →
  Enroll c r w =
    (cert <- EnrollHost c (default EmptyString (Vars r !! "hostname")) r ;;
     match cert with
     | Err err =>
         logger_log "error" [] "internal error" ;;;
         http_Error err StatusInternalServerError
     | Ok cert => Write cert
     end) w.
Proof.
  intros Htls Hchains Hv. unfold Enroll. unfold bind at 1, lift at 1.
  rewrite (clientAuthenticated_chain r conn _ _ Htls Hchains). simpl.
  unfold bind at 1, lift at 1.
  rewrite (clientHostnameMatches_leaf _ r conn leaf rest chains Htls Hchains).
  now rewrite bool_decide_eq_true_2 by assumption.
Qed.

(** The answer of [Enroll] to an error from [EnrollHost]. *)
Lemma Enroll_error_response (err : string) (w1 : World) :
  ∃ w',
    (logger_log "error" [] "internal error" ;;;
     http_Error err StatusInternalServerError) w1 = (Done tt, w') ∧
    (status (response w1) = None → status (response w') = Some StatusInternalServerError) ∧
    written (response w') = written (response w1) +:+ err +:+ newline ∧
    storage w' = storage w1 ∧
    ledgerCalls (journal w') = ledgerCalls (journal w1).
Proof.
  eexists. split; [reflexivity|]. simpl. split; [intros ->; reflexivity|].
  split; [reflexivity|]. split; [reflexivity|].
  rewrite ledgerCalls_app. simpl. apply app_nil_r.
Qed.

(** C8, as the code has it. When a request that passed authorization and
    carried a key fails inside the pipeline (ledger, nonce, duration or
    signer) with an error, either handler answers 500 and the body is the
    text of that error followed by a line feed. *)
Theorem internal_error_response (c : Api) (r : Request) (w : World) (err : string) :
  fresh w →
  (∀ conn leaf rest chains pk,
     TLS r = Some conn →
     VerifiedChains conn = (leaf :: rest) :: chains →
     VerifyHostname leaf (default EmptyString (Vars r !! "hostname")) = None →
     readPubkey r = Ok pk →
     internalFailure c ssh.HostCert (default EmptyString (Vars r !! "hostname"))
       (hostPrincipals (conf c) (default EmptyString (Vars r !! "hostname"))) pk w err →
     ∃ w', Enroll c r w = (Done tt, w') ∧
           status (response w') = Some StatusInternalServerError ∧
           written (response w') = err +:+ newline) ∧
  (∀ user pk,
     proxyAuthenticated (config.AuthenticatingProxy_ (conf c)) r w = (Done (user, true), w) →
     readPubkey r = Ok pk →
     internalFailure c ssh.UserCert user [user] pk w err →
     ∃ w', EnrollUser c r w = (Done tt, w') ∧
           status (response w') = Some StatusInternalServerError ∧
           written (response w') = err +:+ newline).
Proof.
  intros Hfresh. split.
  - intros conn leaf rest chains pk Htls Hchains Hv Hkey Hfail.
    rewrite (Enroll_authorized c r w conn leaf rest chains Htls Hchains Hv).
    destruct (failing_issuance _ _ _ _ _ _ _ Hfail) as (s & e & evs & Hrun).
    unfold bind at 1. unfold EnrollHost, signHost. rewrite Hkey.
    rewrite (Hrun _ (λ signedCert, match signedCert with
                                   | Err err => ret (Err err)
                                   | Ok signedCert => ret (encodeCert signedCert)
                                   end) (λ err, ret (Err err)))
      by reflexivity.
    unfold ret.
    destruct (Enroll_error_response err (after w s e evs)) as (w' & -> & Hst & Hbody & _).
    exists w'. split; [reflexivity|]. split.
    + apply Hst. simpl. now rewrite Hfresh.
    + rewrite Hbody. simpl. now rewrite Hfresh.
  - intros user pk Hauth Hkey Hfail.
    destruct (failing_issuance _ _ _ _ _ _ _ Hfail) as (s & e & evs & Hrun).
    assert (EnrollUser c r w = respondUser r user pk (Err err) (after w s e evs)) as ->.
    { rewrite <- (Hrun _ (respondUser r user pk)
                    (λ err, logHttpError r err StatusInternalServerError))
        by reflexivity.
      unfold EnrollUser. unfold bind at 1. rewrite Hauth. simpl. rewrite Hkey.
      reflexivity. }
    destruct (respondUser_run r user pk (Err err) (after w s e evs))
      as (rs & entry & -> & Hst & Hbody).
    eexists. split; [reflexivity|]. simpl. split.
    + apply Hst. simpl. now rewrite Hfresh.
    + rewrite Hbody. simpl. now rewrite Hfresh.
Qed.

(** What the two handlers answer to a body that is not a key, once the
    transport checks have passed: [Enroll] 500 with the parse error as
    body, [EnrollUser] 400; neither reaches the ledger. *)
Lemma Enroll_bad_key (c : Api) (r : Request) (w : World) conn leaf rest chains err :
  fresh w →
  TLS r = Some conn →
  VerifiedChains conn = (leaf :: rest) :: chains →
  VerifyHostname leaf (default EmptyString (Vars r !! "hostname")) = None →
  readPubkey r = Err err →
  ∃ w', Enroll c r w = (Done tt, w') ∧
        status (response w') = Some StatusInternalServerError ∧
        written (response w') = err +:+ newline ∧
        noLedgerWrite w w'.
Proof.
  intros Hfresh Htls Hchains Hv Hkey.
  rewrite (Enroll_authorized c r w conn leaf rest chains Htls Hchains Hv).
  unfold bind at 1. rewrite (EnrollHost_bad_key c _ r w err Hkey).
  destruct (Enroll_error_response err w) as (w' & -> & Hst & Hbody & Hs & Hl).
  exists w'. split; [reflexivity|]. split; [apply Hst; now rewrite Hfresh|].
  split; [rewrite Hbody; now rewrite Hfresh|]. split; assumption.
Qed.

Lemma EnrollUser_bad_key (c : Api) (r : Request) (w : World) user err :
  fresh w →
  proxyAuthenticated (config.AuthenticatingProxy_ (conf c)) r w = (Done (user, true), w) →
  readPubkey r = Err err →
  ∃ w', EnrollUser c r w = (Done tt, w') ∧
        status (response w') = Some StatusBadRequest ∧
        noLedgerWrite w w'.
Proof.
  intros Hfresh Hauth Hkey.
  unfold EnrollUser. unfold bind at 1. rewrite Hauth. simpl. rewrite Hkey.
  destruct (logHttpError_run r err StatusBadRequest w) as (rs & entry & -> & Hst & _).
  eexists. split; [reflexivity|]. simpl. split; [apply Hst; now rewrite Hfresh|].
  split; [reflexivity|]. simpl. rewrite ledgerCalls_app. simpl. apply app_nil_r.
Qed.

End Failures.

(** A ledger that refuses with a message of its own: both handlers answer
    500 and send that message. *)
Lemma internal_error_response_witness :
  (∃ w', Enroll Sample.api (Sample.hostRequest (Ok Sample.key))
           (Sample.world [Err "database is locked"]) = (Done tt, w') ∧
         status (response w') = Some StatusInternalServerError ∧
         written (response w') = "database is locked" +:+ newline) ∧
  (∃ w', EnrollUser Sample.api (Sample.proxyRequest "alice" (Ok Sample.key))
           (Sample.world [Err "database is locked"]) = (Done tt, w') ∧
         status (response w') = Some StatusInternalServerError ∧
         written (response w') = "database is locked" +:+ newline).
Proof.
  split.
  - destruct (internal_error_response Sample.api (Sample.hostRequest (Ok Sample.key))
                (Sample.world [Err "database is locked"]) "database is locked" eq_refl)
      as [Hhost _].
    apply (Hhost (Sample.peer ["host.example.com"])
             ["host.example.com"] [] [] Sample.key); try reflexivity.
    left. eexists. reflexivity.
  - destruct (internal_error_response Sample.api
                (Sample.proxyRequest "alice" (Ok Sample.key))
                (Sample.world [Err "database is locked"]) "database is locked" eq_refl)
      as [_ Huser].
    apply (Huser "alice" Sample.key); try reflexivity.
    left. eexists. reflexivity.
Defined.

(** C8 as stated fails: the ledger's own error text is in the body of the
    500 answer. *)
Lemma internal_error_response_counterexample :
  ∃ w',
    Enroll Sample.api (Sample.hostRequest (Ok Sample.key))
      (Sample.world [Err "database is locked"]) = (Done tt, w') ∧
    internalFailure Sample.api ssh.HostCert "host.example.com"
      (hostPrincipals Sample.configuration "host.example.com") Sample.key
      (Sample.world [Err "database is locked"]) "database is locked" ∧
    ¬ (status (response w') = Some StatusInternalServerError ∧
       ¬ occursIn "database is locked" (written (response w'))).
Proof.
  eexists. split; [vm_compute; reflexivity|]. split.
  - left. eexists. reflexivity.
  - intros [_ Hgeneric]. apply Hgeneric. exists EmptyString, newline. reflexivity.
Defined.

(** C9 at a failing input. A host whose certificate matches the name it
    asks for sends a body that is not a key: [Enroll] answers 500, not 400,
    with the parser's message, and leaves the ledger alone; [EnrollUser]
    answers 400 to the same body. *)
Theorem host_bad_key_answered_500 :
  (∃ w', Enroll Sample.api (Sample.hostRequest (Ok [])) (Sample.world [Ok 7]) =
           (Done tt, w') ∧
         status (response w') = Some StatusInternalServerError ∧
         status (response w') ≠ Some StatusBadRequest ∧
         written (response w') = "ssh: no key found" +:+ newline ∧
         noLedgerWrite (Sample.world [Ok 7]) w') ∧
  (∃ w', EnrollUser Sample.api (Sample.proxyRequest "alice" (Ok []))
           (Sample.world [Ok 7]) = (Done tt, w') ∧
         status (response w') = Some StatusBadRequest ∧
         noLedgerWrite (Sample.world [Ok 7]) w').
Proof.
  split.
  - destruct (Enroll_bad_key Sample.api (Sample.hostRequest (Ok [])) (Sample.world [Ok 7])
                (Sample.peer ["host.example.com"]) ["host.example.com"] [] []
                "ssh: no key found")
      as (w' & Hrun & Hst & Hbody & Hledger);
      [reflexivity | reflexivity | reflexivity | vm_compute; reflexivity | reflexivity |].
    exists w'. split; [exact Hrun|]. split; [exact Hst|].
    split; [rewrite Hst; discriminate|]. split; assumption.
  - apply (EnrollUser_bad_key Sample.api (Sample.proxyRequest "alice" (Ok []))
             (Sample.world [Ok 7]) "alice" "ssh: no key found");
      [reflexivity | vm_compute; reflexivity | reflexivity].
Qed.

(** * More of the handlers *)

(** ** Exact answers *)
Section ExactAnswers.
Context {T : Types} {P : Platform T}.

(** The world [http.Error] leaves. *)
Lemma http_Error_exact (error : string) (code : Z) (w : World) :
  http_Error error code w =
    (Done tt,
     {| storage := storage w; entropy := entropy w; clock := clock w;
        response := {| status := Some (default code (status (response w)));
                       written := written (response w) +:+ error +:+ newline |};
        journal := journal w |}).
Proof. unfold http_Error, Write, WriteHeader, setResponse, bind. simpl. reflexivity. Qed.

(** The world [logHttpError] leaves: the entry with method, URL, code and
    error, and the answer of [http.Error]. *)
Lemma logHttpError_exact (r : Request) (err : string) (code : Z) (w : World) :
  logHttpError r err code w =
    (Done tt,
     {| storage := storage w; entropy := entropy w; clock := clock w;
        response := {| status := Some (default code (status (response w)));
                       written := written (response w) +:+ err +:+ newline |};
        journal := journal w ++ [EvLog (httpErrorEntry r err code)] |}).
Proof. reflexivity. Qed.

Lemma respondHost_Err (err : string) (w : World) :
  respondHost (Err err) w =
    (Done tt,
     {| storage := storage w; entropy := entropy w; clock := clock w;
        response := {| status := Some (default StatusInternalServerError
                                         (status (response w)));
                       written := written (response w) +:+ err +:+ newline |};
        journal := journal w ++ [EvLog internalErrorEntry] |}).
Proof. reflexivity. Qed.

Lemma respondHost_Ok (line : string) (w : World) :
  respondHost (Ok line) w =
    (Done tt,
     {| storage := storage w; entropy := entropy w; clock := clock w;
        response := {| status := Some (default StatusOK (status (response w)));
                       written := written (response w) +:+ line |};
        journal := journal w |}).
Proof. reflexivity. Qed.

Lemma respondUser_Err (r : Request) user pk (err : string) (w : World) :
  respondUser r user pk (Err err) w =
    logHttpError r err StatusInternalServerError w.
Proof. reflexivity. Qed.

Lemma respondUser_Ok (r : Request) user pk signed (w : World) :
  ∃ entry,
    level entry = "info" ∧
    respondUser r user pk (Ok signed) w =
      (Done tt,
       {| storage := storage w; entropy := entropy w; clock := clock w;
          response := {| status := Some (default StatusOK (status (response w)));
                         written := written (response w) +:+ certLine signed |};
          journal := journal w ++ [EvLog entry] |}).
Proof. eexists. split; [|reflexivity]. reflexivity. Qed.

Lemma encodeCert_certLine (signed : Certificate PublicKey Signature_) :
  encodeCert signed = Ok (certLine signed).
Proof. reflexivity. Qed.

End ExactAnswers.

(** ** Every way through the two handlers *)
Section Paths.
Context {T : Types} {P : Platform T}.

(** [Enroll] panics on a connection without state or with an empty first
    chain; it refuses with 401 or 403; it answers the error of a body that
    is not a key; or it goes through the ledger and the signer and answers
    what came out. *)
Lemma Enroll_paths (c : Api) (r : Request) (w : World) :
  (∃ msg, Enroll c r w = (Panic msg, w) ∧
          ∀ conn, TLS r = Some conn → ¬ hasLeaf conn) ∨
  (∃ msg code, (code = StatusUnauthorized ∨ code = StatusForbidden) ∧
               Enroll c r w = http_Error msg code w) ∨
  (∃ err, readPubkey r = Err err ∧ Enroll c r w = respondHost (Err err) w) ∨
  (∃ pk cert s e evs,
     readPubkey r = Ok pk ∧
     issuance c ssh.HostCert (default EmptyString (Vars r !! "hostname"))
       (hostPrincipals (conf c) (default EmptyString (Vars r !! "hostname")))
       pk w cert s evs ∧
     Enroll c r w =
       respondHost match cert with
                   | Err err => Err err
                   | Ok signed => Ok (certLine signed)
                   end (after w s e evs)).
Proof.
  destruct (TLS r) as [conn|] eqn:Htls.
  - destruct (VerifiedChains conn) as [|[|leaf rest] chains] eqn:Hchains.
    + right; left. exists "no client certificate provided", StatusUnauthorized.
      split; [left; reflexivity|].
      unfold Enroll. unfold bind at 1, lift at 1.
      now rewrite (clientAuthenticated_empty r conn Htls Hchains).
    + left. exists "index out of range". split.
      * unfold Enroll. unfold bind at 1, lift at 1.
        rewrite (clientAuthenticated_chain r conn _ _ Htls Hchains). simpl.
        unfold bind at 1, lift at 1, clientHostnameMatches.
        now rewrite Htls, Hchains.
      * intros conn' [= <-] Hleaf. now apply (Hleaf chains).
    + destruct (VerifyHostname leaf (default EmptyString (Vars r !! "hostname")))
        as [mismatch|] eqn:Hv.
      * right; left. exists "hostname does not match certificate", StatusForbidden.
        split; [right; reflexivity|].
        unfold Enroll. unfold bind at 1, lift at 1.
        rewrite (clientAuthenticated_chain r conn _ _ Htls Hchains). simpl.
        unfold bind at 1, lift at 1.
        rewrite (clientHostnameMatches_leaf _ r conn leaf rest chains Htls Hchains).
        rewrite Hv. reflexivity.
      * rewrite (Enroll_authorized c r w conn leaf rest chains Htls Hchains Hv).
        destruct (readPubkey r) as [pk|err] eqn:Hkey.
        -- right; right; right.
           destruct (EnrollHost_run c (default EmptyString (Vars r !! "hostname")) r w pk Hkey)
             as (cert & s & e & evs & Hiss & Hrun).
           exists pk, cert, s, e, evs. split; [reflexivity|]. split; [exact Hiss|].
           unfold bind. rewrite Hrun. now destruct cert.
        -- right; right; left. exists err. split; [reflexivity|].
           unfold bind. now rewrite (EnrollHost_bad_key c _ r w err Hkey).
  - left. exists "nil pointer dereference". split.
    + unfold Enroll. unfold bind at 1, lift at 1, clientAuthenticated.
      now rewrite Htls.
    + intros conn [=].
Qed.

(** [EnrollUser] panics on a connection without state or with an empty
    first chain; it refuses through [logHttpError] with 404, 401 or 400; or
    it goes through the ledger and the signer for the forwarded user and
    answers what came out. *)
Lemma EnrollUser_paths (c : Api) (r : Request) (w : World) :
  (∃ msg, EnrollUser c r w = (Panic msg, w) ∧
          ∀ conn, TLS r = Some conn → ¬ hasLeaf conn) ∨
  (∃ err code,
     (code = StatusNotFound ∨ code = StatusUnauthorized ∨ code = StatusBadRequest) ∧
     EnrollUser c r w = logHttpError r err code w) ∨
  (∃ ap user pk cert s e evs,
     config.AuthenticatingProxy_ (conf c) = Some ap ∧
     user = Header_Get (Header r) (config.UsernameHeader ap) ∧
     user ≠ EmptyString ∧
     readPubkey r = Ok pk ∧
     issuance c ssh.UserCert user [user] pk w cert s evs ∧
     EnrollUser c r w = respondUser r user pk cert (after w s e evs)).
Proof.
  destruct (config.AuthenticatingProxy_ (conf c)) as [ap|] eqn:Hap.
  - destruct (TLS r) as [conn|] eqn:Htls.
    + destruct (VerifiedChains conn) as [|[|leaf rest] chains] eqn:Hchains.
      * right; left. exists "request didn't come from proxy", StatusUnauthorized.
        split; [right; left; reflexivity|].
        unfold EnrollUser. rewrite Hap. unfold bind at 1, proxyAuthenticated.
        unfold bind at 1, lift at 1.
        now rewrite (clientAuthenticated_empty r conn Htls Hchains).
      * left. exists "index out of range". split.
        -- unfold EnrollUser. rewrite Hap. unfold bind at 1, proxyAuthenticated.
           unfold bind at 1, lift at 1.
           rewrite (clientAuthenticated_chain r conn _ _ Htls Hchains).
           unfold bind at 1, lift at 1, clientHostnameMatches.
           now rewrite Htls, Hchains.
        -- intros conn' [= <-] Hleaf. now apply (Hleaf chains).
      * assert (∀ b,
                  clientHostnameMatches (config.Hostname ap) r = Done b →
                  proxyAuthenticated (Some ap) r w =
                    (if negb b then
                       logHttpError r "request didn't come from proxy" StatusUnauthorized ;;;
                       ret (EmptyString, false)
                     else
                       if bool_decide (Header_Get (Header r) (config.UsernameHeader ap)
                                       = EmptyString)
                       then logHttpError r "no username supplied" StatusUnauthorized ;;;
                            ret (EmptyString, false)
                       else ret (Header_Get (Header r) (config.UsernameHeader ap), true)) w)
          as Hauth.
        { intros b Hb. unfold proxyAuthenticated. unfold bind at 1, lift at 1.
          rewrite (clientAuthenticated_chain r conn _ _ Htls Hchains).
          unfold bind at 1, lift at 1. rewrite Hb. reflexivity. }
        specialize (Hauth _ (clientHostnameMatches_leaf _ r conn leaf rest chains Htls Hchains)).
        destruct (bool_decide (VerifyHostname leaf (config.Hostname ap) = None)) eqn:Hv;
          cbn [negb] in Hauth.
        -- destruct (bool_decide (Header_Get (Header r) (config.UsernameHeader ap)
                                  = EmptyString)) eqn:Hu.
           ++ right; left. exists "no username supplied", StatusUnauthorized.
              split; [right; left; reflexivity|].
              unfold EnrollUser. rewrite Hap. unfold bind at 1. now rewrite Hauth.
           ++ apply bool_decide_eq_false in Hu.
              destruct (readPubkey r) as [pk|err] eqn:Hkey.
              ** right; right.
                 assert (proxyAuthenticated (config.AuthenticatingProxy_ (conf c)) r w =
                           (Done (Header_Get (Header r) (config.UsernameHeader ap), true), w))
                   as Hok by (now rewrite Hap, Hauth).
                 destruct (EnrollUser_run c r w _ pk Hok Hkey)
                   as (cert & s & e & evs & Hiss & Hrun).
                 exists ap, (Header_Get (Header r) (config.UsernameHeader ap)),
                   pk, cert, s, e, evs.
                 repeat split; assumption.
              ** right; left. exists err, StatusBadRequest.
                 split; [right; right; reflexivity|].
                 unfold EnrollUser. rewrite Hap. unfold bind at 1. rewrite Hauth.
                 unfold ret. simpl. now rewrite Hkey.
        -- right; left. exists "request didn't come from proxy", StatusUnauthorized.
           split; [right; left; reflexivity|].
           unfold EnrollUser. rewrite Hap. unfold bind at 1. now rewrite Hauth.
    + left. exists "nil pointer dereference". split.
      * unfold EnrollUser. rewrite Hap. unfold bind at 1, proxyAuthenticated.
        unfold bind at 1, lift at 1, clientAuthenticated. now rewrite Htls.
      * intros conn [=].
  - right; left. exists "client certificates are unavailable", StatusNotFound.
    split; [left; reflexivity|].
    unfold EnrollUser. rewrite Hap. reflexivity.
Qed.

End Paths.

(** ** Statuses, calls and log lines of a request *)
Section Outcomes.
Context {T : Types} {P : Platform T}.

(** A status is one of those listed. *)
Ltac listed :=
  unfold hostStatuses, userStatuses;
  solve [repeat first [apply list_elem_of_here | apply list_elem_of_further]].

(** Membership in a list written out. *)
Ltac in_list H :=
  repeat (apply elem_of_cons in H as [H|H]; [try discriminate|]);
  try (now apply elem_of_nil in H).

(** What the two shared steps leave in the journal, way by way: the calls
    made, and whether a signature came out. *)
Lemma issuance_calls (c : Api) certType identity principals pubkey (w : World)
    cert s evs :
  issuance c certType identity principals pubkey w cert s evs →
  logEntries evs = [] ∧
  length (ledgerCalls evs) = 1%nat ∧
  (length (signCalls evs) ≤ 1)%nat ∧
  ((∃ signed, cert = Ok signed) ↔ ∃ t sg, EvSignCert t (Ok sg) ∈ evs).
Proof.
  intros [s' err Hrec | s' id err Hrec | s' id nonce d sres Hrec Hd]; simpl.
  - repeat split; try lia.
    + intros [signed [=]].
    + intros (t & sg & Hin). in_list Hin.
  - repeat split; try lia.
    + intros [signed [=]].
    + intros (t & sg & Hin). in_list Hin.
  - repeat split; try lia.
    + intros [signed Hsigned]. destruct sres as [sg|msg]; [|discriminate].
      eexists _, sg. apply elem_of_cons. right. apply elem_of_cons. left. reflexivity.
    + intros (t & sg & Hin). in_list Hin. injection Hin as <- <-. eauto.
Qed.

Lemma logEntries_app (evs evs' : list Event) :
  logEntries (evs ++ evs') = logEntries evs ++ logEntries evs'.
Proof. apply omap_app. Qed.

(** X1. Over a connection whose first chain has a leaf, and on a fresh
    response, both handlers complete. [Enroll] answers 200, 401, 403 or
    500 and [EnrollUser] 200, 400, 401, 404 or 500; the answer is 200
    exactly when the signer returned a signature for this request. *)
Theorem handlers_answer_known_statuses (c : Api) (r : Request) (w : World)
    (conn : ConnectionState) :
  fresh w → TLS r = Some conn → hasLeaf conn →
  (∃ w' code evs,
     Enroll c r w = (Done tt, w') ∧
     status (response w') = Some code ∧ code ∈ hostStatuses ∧
     journal w' = journal w ++ evs ∧
     (code = StatusOK ↔ ∃ t sg, EvSignCert t (Ok sg) ∈ evs)) ∧
  (∃ w' code evs,
     EnrollUser c r w = (Done tt, w') ∧
     status (response w') = Some code ∧ code ∈ userStatuses ∧
     journal w' = journal w ++ evs ∧
     (code = StatusOK ↔ ∃ t sg, EvSignCert t (Ok sg) ∈ evs)).
Proof.
  intros Hfresh Htls Hleaf. split.
  - destruct (Enroll_paths c r w)
      as [(msg & _ & Hpanic) | [(msg & code & Hcode & Hrun) |
          [(err & _ & Hrun) | (pk & cert & s & e & evs & _ & Hiss & Hrun)]]].
    + exfalso. exact (Hpanic conn Htls Hleaf).
    + rewrite http_Error_exact in Hrun. rewrite Hfresh in Hrun. simpl in Hrun.
      eexists _, code, []. split; [exact Hrun|]. simpl. rewrite app_nil_r.
      split; [reflexivity|]. split.
      { destruct Hcode as [-> | ->]; listed. }
      split; [reflexivity|]. split.
      * intros ->. destruct Hcode as [[=] | [=]].
      * intros (t & sg & Hin). in_list Hin.
    + rewrite respondHost_Err in Hrun. rewrite Hfresh in Hrun. simpl in Hrun.
      eexists _, StatusInternalServerError, [EvLog internalErrorEntry].
      split; [exact Hrun|]. simpl.
      split; [reflexivity|]. split; [listed|].
      split; [reflexivity|]. split; [intros [=]|].
      intros (t & sg & Hin). in_list Hin.
    + destruct (issuance_calls _ _ _ _ _ _ _ _ _ Hiss) as (_ & _ & _ & Hsigned).
      destruct cert as [signed|err].
      * rewrite respondHost_Ok in Hrun. simpl in Hrun. rewrite Hfresh in Hrun.
        simpl in Hrun.
        eexists _, StatusOK, evs. split; [exact Hrun|]. simpl.
        split; [reflexivity|]. split; [listed|].
        split; [reflexivity|]. split; [intros _; apply Hsigned; eauto | reflexivity].
      * rewrite respondHost_Err in Hrun. simpl in Hrun. rewrite Hfresh in Hrun.
        simpl in Hrun.
        eexists _, StatusInternalServerError, (evs ++ [EvLog internalErrorEntry]).
        split; [exact Hrun|]. simpl.
        split; [reflexivity|]. split; [listed|].
        split; [now rewrite app_assoc|]. split; [intros [=]|].
        intros (t & sg & Hin). apply elem_of_app in Hin as [Hin|Hin].
        -- destruct (proj2 Hsigned) as [signed [=]]. eauto.
        -- in_list Hin.
  - destruct (EnrollUser_paths c r w)
      as [(msg & _ & Hpanic) | [(err & code & Hcode & Hrun) |
          (ap & user & pk & cert & s & e & evs & _ & _ & _ & _ & Hiss & Hrun)]].
    + exfalso. exact (Hpanic conn Htls Hleaf).
    + rewrite logHttpError_exact in Hrun. rewrite Hfresh in Hrun. simpl in Hrun.
      eexists _, code, [EvLog (httpErrorEntry r err code)].
      split; [exact Hrun|]. simpl.
      split; [reflexivity|]. split.
      { destruct Hcode as [-> | [-> | ->]]; listed. }
      split; [reflexivity|]. split.
      * intros ->. destruct Hcode as [[=] | [[=] | [=]]].
      * intros (t & sg & Hin). in_list Hin.
    + destruct (issuance_calls _ _ _ _ _ _ _ _ _ Hiss) as (_ & _ & _ & Hsigned).
      destruct cert as [signed|err].
      * destruct (respondUser_Ok r user pk signed (after w s e evs))
          as (entry & _ & Hresp).
        rewrite Hresp in Hrun. simpl in Hrun. rewrite Hfresh in Hrun. simpl in Hrun.
        eexists _, StatusOK, (evs ++ [EvLog entry]). split; [exact Hrun|]. simpl.
        split; [reflexivity|]. split; [listed|].
        split; [now rewrite app_assoc|]. split; [|reflexivity].
        intros _. destruct (proj1 Hsigned) as (t & sg & Hin); [eauto|].
        exists t, sg. apply elem_of_app. now left.
      * rewrite respondUser_Err, logHttpError_exact in Hrun. simpl in Hrun.
        rewrite Hfresh in Hrun. simpl in Hrun.
        eexists _, StatusInternalServerError,
          (evs ++ [EvLog (httpErrorEntry r err StatusInternalServerError)]).
        split; [exact Hrun|]. simpl.
        split; [reflexivity|]. split; [listed|].
        split; [now rewrite app_assoc|]. split; [intros [=]|].
        intros (t & sg & Hin). apply elem_of_app in Hin as [Hin|Hin].
        -- destruct (proj2 Hsigned) as [signed [=]]. eauto.
        -- in_list Hin.
Qed.


(** X2. A request makes at most one ledger call, gets at most one
    signature attempt and writes at most one log line, in either handler. *)
Theorem one_call_each (c : Api) (r : Request) (w : World) :
  (∀ o w', Enroll c r w = (o, w') →
     ∃ evs, journal w' = journal w ++ evs ∧
            (length (ledgerCalls evs) ≤ 1)%nat ∧
            (length (signCalls evs) ≤ 1)%nat ∧
            (length (logEntries evs) ≤ 1)%nat) ∧
  (∀ o w', EnrollUser c r w = (o, w') →
     ∃ evs, journal w' = journal w ++ evs ∧
            (length (ledgerCalls evs) ≤ 1)%nat ∧
            (length (signCalls evs) ≤ 1)%nat ∧
            (length (logEntries evs) ≤ 1)%nat).
Proof.
  split; intros o w' Heq.
  - destruct (Enroll_paths c r w)
      as [(msg & Hrun & _) | [(msg & code & _ & Hrun) |
          [(err & _ & Hrun) | (pk & cert & s & e & evs & _ & Hiss & Hrun)]]];
      rewrite Hrun in Heq.
    + injection Heq as _ <-. exists []. rewrite app_nil_r. simpl. repeat split; lia.
    + rewrite http_Error_exact in Heq. injection Heq as _ <-.
      exists []. simpl. rewrite app_nil_r. repeat split; lia.
    + rewrite respondHost_Err in Heq. injection Heq as _ <-.
      exists [EvLog internalErrorEntry]. simpl. repeat split; lia.
    + destruct (issuance_calls _ _ _ _ _ _ _ _ _ Hiss) as (Hlog & Hledger & Hsign & _).
      destruct cert as [signed|err].
      * rewrite respondHost_Ok in Heq. injection Heq as _ <-.
        exists evs. simpl. rewrite Hlog, Hledger. simpl. repeat split; lia.
      * rewrite respondHost_Err in Heq. injection Heq as _ <-.
        exists (evs ++ [EvLog internalErrorEntry]). simpl.
        rewrite ledgerCalls_app, signCalls_app, logEntries_app, !length_app.
        rewrite Hlog, Hledger. simpl.
        split; [now rewrite app_assoc|]. repeat split; lia.
  - destruct (EnrollUser_paths c r w)
      as [(msg & Hrun & _) | [(err & code & _ & Hrun) |
          (ap & user & pk & cert & s & e & evs & _ & _ & _ & _ & Hiss & Hrun)]];
      rewrite Hrun in Heq.
    + injection Heq as _ <-. exists []. rewrite app_nil_r. simpl. repeat split; lia.
    + rewrite logHttpError_exact in Heq. injection Heq as _ <-.
      exists [EvLog (httpErrorEntry r err code)]. simpl. repeat split; lia.
    + destruct (issuance_calls _ _ _ _ _ _ _ _ _ Hiss) as (Hlog & Hledger & Hsign & _).
      destruct cert as [signed|err].
      * destruct (respondUser_Ok r user pk signed (after w s e evs))
          as (entry & _ & Hresp).
        rewrite Hresp in Heq. injection Heq as _ <-.
        exists (evs ++ [EvLog entry]). simpl.
        rewrite ledgerCalls_app, signCalls_app, logEntries_app, !length_app.
        rewrite Hlog, Hledger. simpl.
        split; [now rewrite app_assoc|]. repeat split; lia.
      * rewrite respondUser_Err, logHttpError_exact in Heq. injection Heq as _ <-.
        exists (evs ++ [EvLog (httpErrorEntry r err StatusInternalServerError)]). simpl.
        rewrite ledgerCalls_app, signCalls_app, logEntries_app, !length_app.
        rewrite Hlog, Hledger. simpl.
        split; [now rewrite app_assoc|]. repeat split; lia.
Qed.

(** X3. Whatever [Enroll] logs is the one entry with the message
    [internal error] and no field, and it logs it exactly when it answers
    500: its 401 and 403 answers leave no log line, and neither the error
    text nor the request reaches the log. *)
Theorem host_log_is_generic (c : Api) (r : Request) (w w' : World) o :
  fresh w →
  Enroll c r w = (o, w') →
  ∃ evs, journal w' = journal w ++ evs ∧
         (logEntries evs = [] ∨ logEntries evs = [internalErrorEntry]) ∧
         (logEntries evs = [internalErrorEntry] ↔
          status (response w') = Some StatusInternalServerError).
Proof.
  intros Hfresh Heq.
  destruct (Enroll_paths c r w)
    as [(msg & Hrun & _) | [(msg & code & Hcode & Hrun) |
        [(err & _ & Hrun) | (pk & cert & s & e & evs & _ & Hiss & Hrun)]]];
    rewrite Hrun in Heq.
  - injection Heq as _ <-. exists []. rewrite app_nil_r. simpl.
    split; [reflexivity|]. split; [now left|].
    rewrite Hfresh. simpl. split; discriminate.
  - rewrite http_Error_exact in Heq. injection Heq as _ <-.
    exists []. simpl. rewrite app_nil_r. split; [reflexivity|]. split; [now left|].
    rewrite Hfresh. simpl. split; [discriminate|].
    destruct Hcode as [-> | ->]; discriminate.
  - rewrite respondHost_Err in Heq. injection Heq as _ <-.
    exists [EvLog internalErrorEntry]. simpl.
    split; [reflexivity|]. split; [now right|].
    rewrite Hfresh. simpl. split; reflexivity.
  - destruct (issuance_calls _ _ _ _ _ _ _ _ _ Hiss) as (Hlog & _).
    destruct cert as [signed|err].
    + rewrite respondHost_Ok in Heq. injection Heq as _ <-.
      exists evs. simpl. rewrite Hlog. split; [reflexivity|]. split; [now left|].
      rewrite Hfresh. simpl. split; discriminate.
    + rewrite respondHost_Err in Heq. injection Heq as _ <-.
      exists (evs ++ [EvLog internalErrorEntry]). simpl.
      rewrite logEntries_app, Hlog. simpl.
      split; [now rewrite app_assoc|]. split; [now right|].
      rewrite Hfresh. simpl. split; reflexivity.
Qed.

(** X4. Whenever [EnrollUser] answers with a status other than 200, it
    has logged one entry that carries the method and URL of the request,
    that very status and the error text, and the body it sent is that
    error text and a line feed. *)
Theorem user_errors_are_logged (c : Api) (r : Request) (w w' : World) (code : Z) :
  fresh w →
  EnrollUser c r w = (Done tt, w') →
  status (response w') = Some code →
  code ≠ StatusOK →
  ∃ evs err,
    journal w' = journal w ++ evs ∧
    logEntries evs = [httpErrorEntry r err code] ∧
    written (response w') = err +:+ newline.
Proof.
  intros Hfresh Heq Hstatus Hcode.
  destruct (EnrollUser_paths c r w)
    as [(msg & Hrun & _) | [(err & code' & _ & Hrun) |
        (ap & user & pk & cert & s & e & evs & _ & _ & _ & _ & Hiss & Hrun)]];
    rewrite Hrun in Heq.
  - discriminate.
  - rewrite logHttpError_exact in Heq. injection Heq as <-.
    rewrite Hfresh in Hstatus. simpl in Hstatus. injection Hstatus as <-.
    exists [EvLog (httpErrorEntry r err code')], err. simpl.
    rewrite Hfresh. auto.
  - destruct (issuance_calls _ _ _ _ _ _ _ _ _ Hiss) as (Hlog & _).
    destruct cert as [signed|err].
    + destruct (respondUser_Ok r user pk signed (after w s e evs))
        as (entry & _ & Hresp).
      rewrite Hresp in Heq. injection Heq as <-.
      simpl in Hstatus. rewrite Hfresh in Hstatus. simpl in Hstatus.
      injection Hstatus as <-. contradiction.
    + rewrite respondUser_Err, logHttpError_exact in Heq. injection Heq as <-.
      simpl in Hstatus. rewrite Hfresh in Hstatus. simpl in Hstatus.
      injection Hstatus as <-.
      exists (evs ++ [EvLog (httpErrorEntry r err StatusInternalServerError)]), err.
      simpl. rewrite logEntries_app, Hlog, Hfresh. simpl.
      split; [now rewrite app_assoc|]. auto.
Qed.

End Outcomes.

(** ** The ledger record and the certificate *)
Section Audit.
Context {T : Types} {P : Platform T}.

Ltac in_list H :=
  repeat (apply elem_of_cons in H as [H|H]; [try discriminate|]);
  try (now apply elem_of_nil in H).

(** On every way through the two shared steps, a certificate handed to
    the signer has the type, identity and key that were recorded. *)
Lemma issuance_record (c : Api) certType identity principals pubkey (w : World)
    cert s evs :
  issuance c certType identity principals pubkey w cert s evs →
  ∀ t res, EvSignCert t res ∈ evs →
    ledgerCalls evs =
      [EvRecordIssuance (CertType t) (KeyId t) (Key t) (Ok (Serial t))] ∧
    CertType t = certType ∧ KeyId t = identity ∧ Key t = pubkey ∧
    ValidPrincipals t = principals ∧
    ∀ signed, cert = Ok signed → ∃ sg, res = Ok sg ∧ signed = withSignature t sg.
Proof.
  intros [s' err Hrec | s' id err Hrec | s' id nonce d sres Hrec Hd] t res Hin.
  - in_list Hin.
  - in_list Hin.
  - in_list Hin. injection Hin as -> ->. simpl. repeat split.
    intros signed Hsigned. destruct sres as [sg|msg]; [|discriminate].
    injection Hsigned as <-. eauto.
Qed.

(** X5. The ledger record is the record of the certificate: in both
    handlers, a certificate handed to the signer has the key read from the
    request body, and the one ledger call of the request recorded exactly
    its type, key id, key and serial. For [Enroll] the key id is the
    hostname of the route, the type is host and the hostname is the first
    principal; for [EnrollUser] the key id is the only principal and the
    type is user. *)
Theorem ledger_record_matches_certificate (c : Api) (r : Request) (w : World) :
  (∀ o w', Enroll c r w = (o, w') →
     ∃ evs, journal w' = journal w ++ evs ∧
       ∀ t res, EvSignCert t res ∈ evs →
         readPubkey r = Ok (Key t) ∧
         ledgerCalls evs =
           [EvRecordIssuance (CertType t) (KeyId t) (Key t) (Ok (Serial t))] ∧
         CertType t = ssh.HostCert ∧
         KeyId t = default EmptyString (Vars r !! "hostname") ∧
         head (ValidPrincipals t) = Some (KeyId t)) ∧
  (∀ o w', EnrollUser c r w = (o, w') →
     ∃ evs, journal w' = journal w ++ evs ∧
       ∀ t res, EvSignCert t res ∈ evs →
         readPubkey r = Ok (Key t) ∧
         ledgerCalls evs =
           [EvRecordIssuance (CertType t) (KeyId t) (Key t) (Ok (Serial t))] ∧
         CertType t = ssh.UserCert ∧
         ValidPrincipals t = [KeyId t]).
Proof.
  split; intros o w' Heq.
  - destruct (Enroll_paths c r w)
      as [(msg & Hrun & _) | [(msg & code & _ & Hrun) |
          [(err & _ & Hrun) | (pk & cert & s & e & evs & Hkey & Hiss & Hrun)]]];
      rewrite Hrun in Heq.
    + injection Heq as _ <-. exists []. rewrite app_nil_r.
      split; [reflexivity|]. intros t res Hin. in_list Hin.
    + rewrite http_Error_exact in Heq. injection Heq as _ <-.
      exists []. simpl. rewrite app_nil_r.
      split; [reflexivity|]. intros t res Hin. in_list Hin.
    + rewrite respondHost_Err in Heq. injection Heq as _ <-.
      exists [EvLog internalErrorEntry]. simpl.
      split; [reflexivity|]. intros t res Hin. in_list Hin.
    + pose proof (issuance_record _ _ _ _ _ _ _ _ _ Hiss) as Hrec.
      assert (∀ t res, EvSignCert t res ∈ evs →
                readPubkey r = Ok (Key t) ∧
                ledgerCalls evs =
                  [EvRecordIssuance (CertType t) (KeyId t) (Key t) (Ok (Serial t))] ∧
                CertType t = ssh.HostCert ∧
                KeyId t = default EmptyString (Vars r !! "hostname") ∧
                head (ValidPrincipals t) = Some (KeyId t)) as Hall.
      { intros t res Hin.
        destruct (Hrec t res Hin) as (Hcalls & Hct & Hid & Hk & Hp & _).
        split; [now rewrite Hk|]. split; [exact Hcalls|]. split; [exact Hct|].
        split; [exact Hid|]. rewrite Hp, Hid. unfold hostPrincipals.
        destruct (negb _ && _); destruct (config.Aliases (conf c) !! _); reflexivity. }
      destruct cert as [signed|err].
      * rewrite respondHost_Ok in Heq. injection Heq as _ <-.
        exists evs. split; [reflexivity|]. exact Hall.
      * rewrite respondHost_Err in Heq. injection Heq as _ <-.
        exists (evs ++ [EvLog internalErrorEntry]). simpl.
        split; [now rewrite app_assoc|]. intros t res Hin.
        apply elem_of_app in Hin as [Hin|Hin]; [|in_list Hin].
        rewrite ledgerCalls_app. simpl. rewrite app_nil_r. exact (Hall t res Hin).
  - destruct (EnrollUser_paths c r w)
      as [(msg & Hrun & _) | [(err & code & _ & Hrun) |
          (ap & user & pk & cert & s & e & evs & _ & _ & _ & Hkey & Hiss & Hrun)]];
      rewrite Hrun in Heq.
    + injection Heq as _ <-. exists []. rewrite app_nil_r.
      split; [reflexivity|]. intros t res Hin. in_list Hin.
    + rewrite logHttpError_exact in Heq. injection Heq as _ <-.
      exists [EvLog (httpErrorEntry r err code)]. simpl.
      split; [reflexivity|]. intros t res Hin. in_list Hin.
    + pose proof (issuance_record _ _ _ _ _ _ _ _ _ Hiss) as Hrec.
      assert (∃ entry, journal w' = journal w ++ evs ++ [EvLog entry]) as [entry Hj].
      { destruct cert as [signed|err].
        - destruct (respondUser_Ok r user pk signed (after w s e evs))
            as (entry & _ & Hresp).
          rewrite Hresp in Heq. injection Heq as _ <-.
          exists entry. simpl. now rewrite app_assoc.
        - rewrite respondUser_Err, logHttpError_exact in Heq. injection Heq as _ <-.
          eexists. simpl. now rewrite app_assoc. }
      exists (evs ++ [EvLog entry]). split; [exact Hj|].
      intros t res Hin. apply elem_of_app in Hin as [Hin|Hin]; [|in_list Hin].
      destruct (Hrec t res Hin) as (Hcalls & Hct & Hid & Hk & Hp & _).
      rewrite ledgerCalls_app. simpl. rewrite app_nil_r.
      split; [now rewrite Hk|]. split; [exact Hcalls|]. split; [exact Hct|].
      now rewrite Hp, Hid.
Qed.

(** X6. When a handler answers 200 on a fresh response, the body is one
    line and nothing else: the type of the key read from the request, the
    text [-cert-v01@openssh.com], a space, the base64 of the certificate
    the signer completed, and a line feed. *)
Theorem success_body_is_certificate_line (c : Api) (r : Request) (w : World) :
  fresh w →
  (∀ o w', Enroll c r w = (o, w') →
     status (response w') = Some StatusOK →
     ∃ pk evs t sg,
       readPubkey r = Ok pk ∧ journal w' = journal w ++ evs ∧
       EvSignCert t (Ok sg) ∈ evs ∧
       written (response w') =
         key_Type pk +:+ "-cert-v01@openssh.com " +:+
         base64_EncodeToString (cert_Marshal (withSignature t sg)) +:+ newline) ∧
  (∀ o w', EnrollUser c r w = (o, w') →
     status (response w') = Some StatusOK →
     ∃ pk evs t sg,
       readPubkey r = Ok pk ∧ journal w' = journal w ++ evs ∧
       EvSignCert t (Ok sg) ∈ evs ∧
       written (response w') =
         key_Type pk +:+ "-cert-v01@openssh.com " +:+
         base64_EncodeToString (cert_Marshal (withSignature t sg)) +:+ newline).
Proof.
  intros Hfresh. split; intros o w' Heq Hstatus.
  - destruct (Enroll_paths c r w)
      as [(msg & Hrun & _) | [(msg & code & Hcode & Hrun) |
          [(err & _ & Hrun) | (pk & cert & s & e & evs & Hkey & Hiss & Hrun)]]];
      rewrite Hrun in Heq.
    + injection Heq as _ <-. rewrite Hfresh in Hstatus. discriminate.
    + rewrite http_Error_exact in Heq. injection Heq as _ <-.
      simpl in Hstatus. rewrite Hfresh in Hstatus. simpl in Hstatus.
      destruct Hcode as [-> | ->]; discriminate.
    + rewrite respondHost_Err in Heq. injection Heq as _ <-.
      simpl in Hstatus. rewrite Hfresh in Hstatus. discriminate.
    + destruct cert as [signed|err].
      * rewrite respondHost_Ok in Heq. injection Heq as _ <-.
        destruct (issuance_serial _ _ _ _ _ _ _ _ _ Hiss) as (_ & _ & Hok).
        destruct (Hok signed eq_refl) as (id & t & sg & _ & -> & -> & _).
        exists pk, [EvRecordIssuance ssh.HostCert
                      (default EmptyString (Vars r !! "hostname")) pk (Ok id);
                    EvSignCert t (Ok sg)], t, sg.
        split; [exact Hkey|]. split; [reflexivity|].
        split; [apply elem_of_cons; right; apply elem_of_cons; now left|].
        simpl. rewrite Hfresh. simpl. unfold certLine.
        assert (Key (withSignature t sg) = pk) as ->; [|reflexivity].
        pose proof (issuance_record _ _ _ _ _ _ _ _ _ Hiss t (Ok sg)) as Hrec.
        destruct Hrec as (_ & _ & _ & Hk & _).
        { apply elem_of_cons; right; apply elem_of_cons; now left. }
        rewrite <- Hk. now destruct sg as [[? ?] ?].
      * rewrite respondHost_Err in Heq. injection Heq as _ <-.
        simpl in Hstatus. rewrite Hfresh in Hstatus. discriminate.
  - destruct (EnrollUser_paths c r w)
      as [(msg & Hrun & _) | [(err & code & Hcode & Hrun) |
          (ap & user & pk & cert & s & e & evs & _ & _ & _ & Hkey & Hiss & Hrun)]];
      rewrite Hrun in Heq.
    + injection Heq as _ <-. rewrite Hfresh in Hstatus. discriminate.
    + rewrite logHttpError_exact in Heq. injection Heq as _ <-.
      simpl in Hstatus. rewrite Hfresh in Hstatus. simpl in Hstatus.
      destruct Hcode as [-> | [-> | ->]]; discriminate.
    + destruct cert as [signed|err].
      * destruct (respondUser_Ok r user pk signed (after w s e evs))
          as (entry & _ & Hresp).
        rewrite Hresp in Heq. injection Heq as _ <-.
        destruct (issuance_serial _ _ _ _ _ _ _ _ _ Hiss) as (_ & _ & Hok).
        destruct (Hok signed eq_refl) as (id & t & sg & _ & -> & -> & _).
        exists pk, ([EvRecordIssuance ssh.UserCert user pk (Ok id);
                     EvSignCert t (Ok sg)] ++ [EvLog entry]), t, sg.
        split; [exact Hkey|]. split; [simpl; now rewrite <- app_assoc|].
        split; [apply elem_of_cons; right; apply elem_of_cons; now left|].
        simpl. rewrite Hfresh. simpl. unfold certLine.
        assert (Key (withSignature t sg) = pk) as ->; [|reflexivity].
        pose proof (issuance_record _ _ _ _ _ _ _ _ _ Hiss t (Ok sg)) as Hrec.
        destruct Hrec as (_ & _ & _ & Hk & _).
        { apply elem_of_cons; right; apply elem_of_cons; now left. }
        rewrite <- Hk. now destruct sg as [[? ?] ?].
      * rewrite respondUser_Err, logHttpError_exact in Heq. injection Heq as _ <-.
        simpl in Hstatus. rewrite Hfresh in Hstatus. discriminate.
Qed.

End Audit.

(** ** Failures after and at the ledger *)
Section LedgerFailures.
Context {T : Types} {P : Platform T}.

(** The two shared steps when the ledger refuses: nothing else runs. *)
Lemma two_steps_refused (c : Api) certType identity principals pubkey (w : World)
    s err :
  RecordIssuance (storage w) certType identity pubkey = (s, Err err) →
  ∀ (A : Type) (k : result (Certificate PublicKey Signature_) → M A)
    (kerr : string → M A),
    (∀ err, kerr err = k (Err err)) →
    (id <- storage_RecordIssuance certType identity pubkey ;;
     match id with
     | Err err => kerr err
     | Ok id =>
         signed <- sign c identity principals id certType pubkey ;; k signed
     end) w =
    k (Err err) (after w s (entropy w)
                   [EvRecordIssuance certType identity pubkey (Err err)]).
Proof.
  intros Hrec A k kerr Hk.
  unfold bind, storage_RecordIssuance. rewrite Hrec. now rewrite Hk.
Qed.

(** The two shared steps when the ledger gave a serial and [sign] failed:
    the ledger call stays the only one. *)
Lemma two_steps_sign_failed (c : Api) certType identity principals pubkey (w : World)
    s id err w1 :
  RecordIssuance (storage w) certType identity pubkey = (s, Ok id) →
  sign c identity principals id certType pubkey
    (after w s (entropy w) [EvRecordIssuance certType identity pubkey (Ok id)]) =
    (Done (Err err), w1) →
  ∃ e evs,
    ledgerCalls evs = [] ∧ logEntries evs = [] ∧
    ∀ (A : Type) (k : result (Certificate PublicKey Signature_) → M A)
      (kerr : string → M A),
      (∀ err, kerr err = k (Err err)) →
      (id <- storage_RecordIssuance certType identity pubkey ;;
       match id with
       | Err err => kerr err
       | Ok id =>
           signed <- sign c identity principals id certType pubkey ;; k signed
       end) w =
      k (Err err) (after w s e
                     ([EvRecordIssuance certType identity pubkey (Ok id)] ++ evs)).
Proof.
  intros Hrec Hsign.
  destruct (sign_run c identity principals id certType pubkey
              (after w s (entropy w) [EvRecordIssuance certType identity pubkey (Ok id)]))
    as (e & evs & o & Hrun & Hcases).
  rewrite Hrun in Hsign. injection Hsign as -> _.
  exists e, evs. split; [|split].
  - destruct Hcases as [[-> _] | (nonce & d & res & _ & -> & _)]; reflexivity.
  - destruct Hcases as [[-> _] | (nonce & d & res & _ & -> & _)]; reflexivity.
  - intros A k kerr Hk.
    unfold bind at 1, storage_RecordIssuance. rewrite Hrec.
    unfold bind. unfold after in Hrun. rewrite Hrun.
    unfold after. simpl. now rewrite <- app_assoc.
Qed.

(** [Enroll] past the transport checks with a key in the body, as the two
    shared steps and the answer. *)
Lemma Enroll_keyed (c : Api) (r : Request) (w : World) conn leaf rest chains pk :
  TLS r = Some conn →
  VerifiedChains conn = (leaf :: rest) :: chains →
  VerifyHostname leaf (default EmptyString (Vars r !! "hostname")) = None →
  readPubkey r = Ok pk →
  Enroll c r w =
    (id <- storage_RecordIssuance ssh.HostCert
             (default EmptyString (Vars r !! "hostname")) pk ;;
     match id with
     | Err err => respondHost (Err err)
     | Ok id =>
         signed <- sign c (default EmptyString (Vars r !! "hostname"))
                     (hostPrincipals (conf c) (default EmptyString (Vars r !! "hostname")))
                     id ssh.HostCert pk ;;
         respondHost match signed with
                     | Err err => Err err
                     | Ok signed => encodeCert signed
                     end
     end) w.
Proof.
  intros Htls Hchains Hv Hkey.
  rewrite (Enroll_authorized c r w conn leaf rest chains Htls Hchains Hv).
  unfold bind at 1. unfold EnrollHost, signHost. rewrite Hkey.
  unfold bind, storage_RecordIssuance.
  destruct (RecordIssuance _ _ _ _) as [s [id|err]]; [|reflexivity].
  destruct (sign _ _ _ _ _ _ _) as [[[signed|err]|msg] w1]; reflexivity.
Qed.

(** [EnrollUser] past the proxy checks with a key in the body. *)
Lemma EnrollUser_keyed (c : Api) (r : Request) (w : World) user pk :
  proxyAuthenticated (config.AuthenticatingProxy_ (conf c)) r w = (Done (user, true), w) →
  readPubkey r = Ok pk →
  EnrollUser c r w =
    (id <- storage_RecordIssuance ssh.UserCert user pk ;;
     match id with
     | Err err => logHttpError r err StatusInternalServerError
     | Ok id =>
         signed <- sign c user [user] id ssh.UserCert pk ;;
         respondUser r user pk signed
     end) w.
Proof.
  intros Hauth Hkey.
  unfold EnrollUser. unfold bind at 1. rewrite Hauth. simpl. rewrite Hkey.
  reflexivity.
Qed.

(** X7. The ledger write is not taken back. When [RecordIssuance] has
    returned a serial and [sign] then fails, either handler answers 500
    and leaves the ledger as [RecordIssuance] left it, with that one call
    on record. *)
Theorem ledger_write_is_not_rolled_back (c : Api) (r : Request) (w : World)
    (pk : PublicKey) (s : Storage) (id : Z) (err : string) (w1 : World) :
  fresh w →
  readPubkey r = Ok pk →
  (∀ conn leaf rest chains,
     TLS r = Some conn →
     VerifiedChains conn = (leaf :: rest) :: chains →
     VerifyHostname leaf (default EmptyString (Vars r !! "hostname")) = None →
     RecordIssuance (storage w) ssh.HostCert
       (default EmptyString (Vars r !! "hostname")) pk = (s, Ok id) →
     sign c (default EmptyString (Vars r !! "hostname"))
       (hostPrincipals (conf c) (default EmptyString (Vars r !! "hostname")))
       id ssh.HostCert pk
       (after w s (entropy w)
          [EvRecordIssuance ssh.HostCert
             (default EmptyString (Vars r !! "hostname")) pk (Ok id)]) =
       (Done (Err err), w1) →
     ∃ w', Enroll c r w = (Done tt, w') ∧
           status (response w') = Some StatusInternalServerError ∧
           storage w' = s ∧
           ledgerCalls (journal w') =
             ledgerCalls (journal w) ++
             [EvRecordIssuance ssh.HostCert
                (default EmptyString (Vars r !! "hostname")) pk (Ok id)]) ∧
  (∀ user,
     proxyAuthenticated (config.AuthenticatingProxy_ (conf c)) r w = (Done (user, true), w) →
     RecordIssuance (storage w) ssh.UserCert user pk = (s, Ok id) →
     sign c user [user] id ssh.UserCert pk
       (after w s (entropy w) [EvRecordIssuance ssh.UserCert user pk (Ok id)]) =
       (Done (Err err), w1) →
     ∃ w', EnrollUser c r w = (Done tt, w') ∧
           status (response w') = Some StatusInternalServerError ∧
           storage w' = s ∧
           ledgerCalls (journal w') =
             ledgerCalls (journal w) ++ [EvRecordIssuance ssh.UserCert user pk (Ok id)]).
Proof.
  intros Hfresh Hkey. split.
  - intros conn leaf rest chains Htls Hchains Hv Hrec Hsign.
    destruct (two_steps_sign_failed _ _ _ _ _ _ _ _ _ _ Hrec Hsign)
      as (e & evs & Hquiet & _ & Hrun).
    rewrite (Enroll_keyed c r w conn leaf rest chains pk Htls Hchains Hv Hkey).
    rewrite (Hrun _ (λ signed, respondHost match signed with
                                           | Err err => Err err
                                           | Ok signed => encodeCert signed
                                           end)
               (λ err, respondHost (Err err))) by reflexivity.
    rewrite respondHost_Err. eexists. split; [reflexivity|]. simpl.
    rewrite Hfresh. simpl. split; [reflexivity|]. split; [reflexivity|].
    unfold ledgerCalls in *. rewrite !List.filter_app. simpl.
    rewrite Hquiet. now rewrite app_nil_r.
  - intros user Hauth Hrec Hsign.
    destruct (two_steps_sign_failed _ _ _ _ _ _ _ _ _ _ Hrec Hsign)
      as (e & evs & Hquiet & _ & Hrun).
    rewrite (EnrollUser_keyed c r w user pk Hauth Hkey).
    rewrite (Hrun _ (respondUser r user pk)
               (λ err, logHttpError r err StatusInternalServerError)) by reflexivity.
    rewrite respondUser_Err, logHttpError_exact. eexists. split; [reflexivity|]. simpl.
    rewrite Hfresh. simpl. split; [reflexivity|]. split; [reflexivity|].
    unfold ledgerCalls in *. rewrite !List.filter_app. simpl.
    rewrite Hquiet. now rewrite app_nil_r.
Qed.

(** X8. A refusal of the ledger ends the request at once. When
    [RecordIssuance] returns an error, either handler answers 500 without
    drawing from the random source and without reaching the signer. *)
Theorem ledger_refusal_ends_request (c : Api) (r : Request) (w : World)
    (pk : PublicKey) (s : Storage) (err : string) :
  fresh w →
  readPubkey r = Ok pk →
  (∀ conn leaf rest chains,
     TLS r = Some conn →
     VerifiedChains conn = (leaf :: rest) :: chains →
     VerifyHostname leaf (default EmptyString (Vars r !! "hostname")) = None →
     RecordIssuance (storage w) ssh.HostCert
       (default EmptyString (Vars r !! "hostname")) pk = (s, Err err) →
     ∃ w', Enroll c r w = (Done tt, w') ∧
           status (response w') = Some StatusInternalServerError ∧
           entropy w' = entropy w ∧ noSigning w w') ∧
  (∀ user,
     proxyAuthenticated (config.AuthenticatingProxy_ (conf c)) r w = (Done (user, true), w) →
     RecordIssuance (storage w) ssh.UserCert user pk = (s, Err err) →
     ∃ w', EnrollUser c r w = (Done tt, w') ∧
           status (response w') = Some StatusInternalServerError ∧
           entropy w' = entropy w ∧ noSigning w w').
Proof.
  intros Hfresh Hkey. split.
  - intros conn leaf rest chains Htls Hchains Hv Hrec.
    rewrite (Enroll_keyed c r w conn leaf rest chains pk Htls Hchains Hv Hkey).
    rewrite (two_steps_refused _ _ _ _ _ _ _ _ Hrec _
               (λ signed, respondHost match signed with
                                      | Err err => Err err
                                      | Ok signed => encodeCert signed
                                      end)
               (λ err, respondHost (Err err))) by reflexivity.
    rewrite respondHost_Err. eexists. split; [reflexivity|]. simpl.
    rewrite Hfresh. simpl. split; [reflexivity|]. split; [reflexivity|].
    unfold noSigning, signCalls. simpl. rewrite !List.filter_app. simpl.
    now rewrite !app_nil_r.
  - intros user Hauth Hrec.
    rewrite (EnrollUser_keyed c r w user pk Hauth Hkey).
    rewrite (two_steps_refused _ _ _ _ _ _ _ _ Hrec _ (respondUser r user pk)
               (λ err, logHttpError r err StatusInternalServerError)) by reflexivity.
    rewrite respondUser_Err, logHttpError_exact. eexists. split; [reflexivity|]. simpl.
    rewrite Hfresh. simpl. split; [reflexivity|]. split; [reflexivity|].
    unfold noSigning, signCalls. simpl. rewrite !List.filter_app. simpl.
    now rewrite !app_nil_r.
Qed.

End LedgerFailures.

(** ** Certificate types, extensions and the validity window *)
Section Policy.
Context {T : Types} {P : Platform T}.

(** X9. A certificate type that is neither host nor user is refused:
    [sign] returns an error and the signer is never called; once the
    nonce is drawn the error is the message naming the type. No default
    duration is used. *)
Theorem unknown_cert_type_is_not_signed (c : Api) keyId principals serial certType
    pubkey (w : World) :
  certType ≠ ssh.HostCert → certType ≠ ssh.UserCert →
  ∃ err w',
    sign c keyId principals serial certType pubkey w = (Done (Err err), w') ∧
    noSigning w w' ∧ noLedgerWrite w w' ∧ response w' = response w ∧
    (∀ e nonce, rand_Read (entropy w) 32 = (e, Ok nonce) →
                err = "unknown cert type " +:+ pretty certType).
Proof.
  intros Hhost Huser.
  assert (getDurationForCertType (conf c) certType =
            Err ("unknown cert type " +:+ pretty certType)) as Hd.
  { unfold getDurationForCertType.
    now rewrite !decide_False by assumption. }
  destruct w as [st en ck rs jn].
  unfold sign, bind, crypto_rand_Read, time_Now, ret. simpl.
  destruct (rand_Read en 32) as [e [nonce|err]] eqn:Hrand; simpl.
  - rewrite Hd. eexists _, _. split; [reflexivity|].
    split; [reflexivity|]. split; [split; reflexivity|]. split; [reflexivity|].
    intros e' nonce' [= _ _]. reflexivity.
  - eexists _, _. split; [reflexivity|].
    split; [reflexivity|]. split; [split; reflexivity|]. split; [reflexivity|].
    intros e' nonce' [=].
Qed.

(** The names with an entry in the filled map are the listed ones. *)
Lemma fillExtensions_dom (exts : list string) :
  dom (fillExtensions exts) = (list_to_set exts : gset string).
Proof.
  apply set_eq. intros k. rewrite elem_of_dom, elem_of_list_to_set.
  split.
  - intros [v Hv]. now apply fillExtensions_lookup in Hv as [Hin _].
  - intros Hin. exists EmptyString. now apply fillExtensions_lookup.
Qed.

(** The filled map has one entry for each distinct name. *)
Lemma fillExtensions_size (exts : list string) :
  size (fillExtensions exts) = length (remove_dups exts).
Proof.
  rewrite <- (size_dom (D:=gset string)), fillExtensions_dom.
  rewrite <- (size_list_to_set (C:=gset string) (remove_dups exts))
    by apply NoDup_remove_dups.
  f_equal. apply set_eq. intros k.
  rewrite !elem_of_list_to_set. symmetry. apply elem_of_remove_dups.
Qed.

(** X10. The extensions of a user certificate depend on the set of
    configured names only: two configurations listing the same names, in
    any order and with any repetitions, give the same permissions for
    every certificate type, and a non-empty list gives a map with one
    entry for each distinct name. *)
Theorem extensions_ignore_order_and_repetition (cfg1 cfg2 : config.SSH) (certType : Z) :
  (∀ k, k ∈ config.UserCertExtensions cfg1 ↔ k ∈ config.UserCertExtensions cfg2) →
  getPermissionsForCertType (Some cfg1) certType =
    getPermissionsForCertType (Some cfg2) certType ∧
  (certType = ssh.UserCert → config.UserCertExtensions cfg1 ≠ [] →
   ∃ m, ssh.Extensions (getPermissionsForCertType (Some cfg1) certType) = Some m ∧
        size m = length (remove_dups (config.UserCertExtensions cfg1))).
Proof.
  intros Hsame. split.
  - unfold getPermissionsForCertType.
    destruct (decide (certType = ssh.UserCert)); [|reflexivity].
    destruct (config.UserCertExtensions cfg1) as [|x1 l1] eqn:H1;
      destruct (config.UserCertExtensions cfg2) as [|x2 l2] eqn:H2; simpl.
    + reflexivity.
    + exfalso. apply (elem_of_nil x2), Hsame, elem_of_cons. now left.
    + exfalso. apply (elem_of_nil x1), Hsame, elem_of_cons. now left.
    + f_equal. f_equal. apply map_eq. intros k.
      destruct (fillExtensions (x1 :: l1) !! k) as [v|] eqn:Hk.
      * apply fillExtensions_lookup in Hk as [Hin ->].
        symmetry. apply fillExtensions_lookup. split; [now apply Hsame | reflexivity].
      * destruct (fillExtensions (x2 :: l2) !! k) as [v|] eqn:Hk2; [|reflexivity].
        apply fillExtensions_lookup in Hk2 as [Hin ->].
        assert (fillExtensions (x1 :: l1) !! k = Some EmptyString) as Hk1
          by (apply fillExtensions_lookup; split; [now apply Hsame | reflexivity]).
        congruence.
  - intros -> Hne. unfold getPermissionsForCertType.
    rewrite decide_True by reflexivity.
    assert ((0 <? length (config.UserCertExtensions cfg1))%nat = true) as ->
      by (destruct (config.UserCertExtensions cfg1); [contradiction | reflexivity]).
    eexists. split; [reflexivity|]. apply fillExtensions_size.
Qed.

(** Unix seconds do not decrease with time. *)
Lemma time_Unix_mono (t t' : Z) : t ≤ t' → time_Unix t ≤ time_Unix t'.
Proof. intros Hle. unfold time_Unix. apply Z.div_le_mono; lia. Qed.

Lemma time_Unix_second (t : Z) : time_Unix (t + 1000000000) = time_Unix t + 1.
Proof.
  unfold time_Unix.
  replace (t + 1000000000) with (t + 1 * 1000000000) by lia.
  apply Z.div_add. lia.
Qed.

(** The two ends of the window of a returned certificate. *)
Lemma validity_window_bounds (c : Api) keyId principals serial certType pubkey
    (w w' : World) cert d :
  sign c keyId principals serial certType pubkey w = (Done (Ok cert), w') →
  getDurationForCertType (conf c) certType = Ok d →
  ValidAfter cert = uint64 (time_Unix (clock w)) ∧
  ValidBefore cert = uint64 (time_Unix (clock w + d)).
Proof.
  intros (nonce & d' & sg & Hd' & -> & _)%sign_Ok Hd.
  rewrite Hd in Hd'. injection Hd' as <-.
  destruct sg as [[? ?] ?]. split; reflexivity.
Qed.

(** X11. The window of a returned certificate follows the sign of the
    configured duration, which [sign] does not check. With representable
    times, a duration of at least one second gives [ValidAfter] before
    [ValidBefore], a duration from zero up to one second gives a window
    that may be empty but is not reversed, and a negative duration of a
    second or more gives a certificate whose [ValidBefore] precedes its
    [ValidAfter]. *)
Theorem validity_window_follows_duration (c : Api) keyId principals serial certType
    pubkey (w w' : World) cert d :
  sign c keyId principals serial certType pubkey w = (Done (Ok cert), w') →
  getDurationForCertType (conf c) certType = Ok d →
  representable (clock w) → representable (clock w + d) →
  (1000000000 ≤ d → ValidAfter cert < ValidBefore cert) ∧
  (0 ≤ d → ValidAfter cert ≤ ValidBefore cert) ∧
  (d ≤ 0 → ValidBefore cert ≤ ValidAfter cert) ∧
  (d ≤ -1000000000 → ValidBefore cert < ValidAfter cert).
Proof.
  intros Hrun Hd Hnow Hend.
  destruct (validity_window_bounds c keyId principals serial certType pubkey w w' cert d
              Hrun Hd) as [-> ->].
  unfold representable in *. rewrite !uint64_small by assumption.
  repeat split; intros Hsign.
  - pose proof (time_Unix_mono (clock w + 1000000000) (clock w + d)) as Hm.
    rewrite time_Unix_second in Hm. lia.
  - apply time_Unix_mono. lia.
  - apply time_Unix_mono. lia.
  - pose proof (time_Unix_mono (clock w + d + 1000000000) (clock w)) as Hm.
    rewrite time_Unix_second in Hm. lia.
Qed.

End Policy.

(** ** The sample deployment, once more *)

(** The sample host and user enrollments complete with a listed status. *)
Lemma handlers_answer_known_statuses_witness :
  (∃ w' code,
     Enroll Sample.api (Sample.hostRequest (Ok Sample.key)) (Sample.world [Ok 7]) =
       (Done tt, w') ∧
     status (response w') = Some code ∧ code ∈ hostStatuses) ∧
  (∃ w' code,
     EnrollUser Sample.api (Sample.proxyRequest "alice" (Ok Sample.key))
       (Sample.world [Ok 8]) = (Done tt, w') ∧
     status (response w') = Some code ∧ code ∈ userStatuses).
Proof.
  split.
  - destruct (handlers_answer_known_statuses Sample.api
                (Sample.hostRequest (Ok Sample.key)) (Sample.world [Ok 7])
                (Sample.peer ["host.example.com"]) eq_refl eq_refl)
      as [(w' & code & evs & Hrun & Hst & Hin & _) _].
    { intros chains. discriminate. }
    exists w', code. auto.
  - destruct (handlers_answer_known_statuses Sample.api
                (Sample.proxyRequest "alice" (Ok Sample.key)) (Sample.world [Ok 8])
                (Sample.peer ["proxy.example.com"]) eq_refl eq_refl)
      as [_ (w' & code & evs & Hrun & Hst & Hin & _)].
    { intros chains. discriminate. }
    exists w', code. auto.
Defined.

(** The sample host enrollment: one ledger call, one signature, no log line. *)
Lemma one_call_each_witness :
  ∃ w' evs,
    Enroll Sample.api (Sample.hostRequest (Ok Sample.key)) (Sample.world [Ok 7]) =
      (Done tt, w') ∧
    journal w' = journal (Sample.world [Ok 7]) ++ evs ∧
    (length (ledgerCalls evs) ≤ 1)%nat ∧
    (length (signCalls evs) ≤ 1)%nat ∧
    (length (logEntries evs) ≤ 1)%nat.
Proof.
  run_as Hrun (Enroll Sample.api (Sample.hostRequest (Ok Sample.key))
                 (Sample.world [Ok 7])).
  destruct (proj1 (one_call_each Sample.api (Sample.hostRequest (Ok Sample.key))
                     (Sample.world [Ok 7])) _ _ Hrun) as (evs & Hj & Hcounts).
  eexists _, evs. split; [exact Hrun|]. split; [exact Hj | exact Hcounts].
Defined.

(** A ledger refusal on the sample host enrollment is logged as the fixed
    entry. *)
Lemma host_log_is_generic_witness :
  ∃ w' evs,
    Enroll Sample.api (Sample.hostRequest (Ok Sample.key))
      (Sample.world [Err "database is locked"]) = (Done tt, w') ∧
    journal w' = journal (Sample.world [Err "database is locked"]) ++ evs ∧
    logEntries evs = [internalErrorEntry].
Proof.
  run_as Hrun (Enroll Sample.api (Sample.hostRequest (Ok Sample.key))
                 (Sample.world [Err "database is locked"])).
  destruct (host_log_is_generic Sample.api (Sample.hostRequest (Ok Sample.key))
              (Sample.world [Err "database is locked"]) _ _ eq_refl Hrun)
    as (evs & Hj & _ & Hiff).
  eexists _, evs. split; [exact Hrun|]. split; [exact Hj|].
  apply Hiff. reflexivity.
Defined.

(** The proxy forwarding no user name: the 401 is logged with its status. *)
Lemma user_errors_are_logged_witness :
  ∃ w' evs err,
    EnrollUser Sample.api (Sample.proxyRequest EmptyString (Ok Sample.key))
      (Sample.world [Ok 8]) = (Done tt, w') ∧
    logEntries evs =
      [httpErrorEntry (Sample.proxyRequest EmptyString (Ok Sample.key)) err
         StatusUnauthorized] ∧
    written (response w') = err +:+ newline.
Proof.
  run_as Hrun (EnrollUser Sample.api (Sample.proxyRequest EmptyString (Ok Sample.key))
                 (Sample.world [Ok 8])).
  destruct (user_errors_are_logged Sample.api
              (Sample.proxyRequest EmptyString (Ok Sample.key))
              (Sample.world [Ok 8]) _ StatusUnauthorized eq_refl Hrun eq_refl)
    as (evs & err & _ & Hlog & Hbody); [discriminate|].
  eexists _, evs, err. split; [exact Hrun|]. split; assumption.
Defined.

(** The sample host enrollment: the ledger recorded what the certificate says. *)
Lemma ledger_record_matches_certificate_witness :
  ∃ w' evs t sg,
    Enroll Sample.api (Sample.hostRequest (Ok Sample.key)) (Sample.world [Ok 7]) =
      (Done tt, w') ∧
    EvSignCert t (Ok sg) ∈ evs ∧
    ledgerCalls evs =
      [EvRecordIssuance (CertType t) (KeyId t) (Key t) (Ok (Serial t))] ∧
    head (ValidPrincipals t) = Some (KeyId t).
Proof.
  run_as Hrun (Enroll Sample.api (Sample.hostRequest (Ok Sample.key))
                 (Sample.world [Ok 7])).
  destruct (proj1 (ledger_record_matches_certificate Sample.api
                     (Sample.hostRequest (Ok Sample.key)) (Sample.world [Ok 7]))
              _ _ Hrun) as (evs & Hj & Hall).
  simpl in Hj. subst evs.
  match type of Hall with
  | ∀ t res, _ ∈ ?l → _ =>
      match l with
      | [_; EvSignCert ?t0 (Ok ?sg0)] =>
          destruct (Hall t0 (Ok sg0)) as (_ & Hcalls & _ & _ & Hhead);
            [apply elem_of_cons; right; apply elem_of_cons; now left|];
          eexists _, l, t0, sg0
      end
  end.
  split; [exact Hrun|].
  split; [apply elem_of_cons; right; apply elem_of_cons; now left|].
  split; assumption.
Defined.

(** The body of the sample host enrollment. *)
Lemma success_body_is_certificate_line_witness :
  ∃ w',
    Enroll Sample.api (Sample.hostRequest (Ok Sample.key)) (Sample.world [Ok 7]) =
      (Done tt, w') ∧
    written (response w') = "ssh-ed25519-cert-v01@openssh.com AAAA" +:+ newline.
Proof.
  run_as Hrun (Enroll Sample.api (Sample.hostRequest (Ok Sample.key))
                 (Sample.world [Ok 7])).
  destruct (proj1 (success_body_is_certificate_line Sample.api
                     (Sample.hostRequest (Ok Sample.key)) (Sample.world [Ok 7]) eq_refl)
              _ _ Hrun eq_refl) as (pk & evs & t & sg & Hkey & _ & _ & Hbody).
  eexists. split; [exact Hrun|]. rewrite Hbody.
  cbv in Hkey. injection Hkey as <-. reflexivity.
Defined.

(** With a host duration that does not parse, the serial 7 stays recorded
    and the host gets a 500. *)
Lemma ledger_write_is_not_rolled_back_witness :
  ∃ w',
    Enroll Sample.apiBadDuration (Sample.hostRequest (Ok Sample.key))
      (Sample.world [Ok 7; Ok 8]) = (Done tt, w') ∧
    status (response w') = Some StatusInternalServerError ∧
    storage w' = [Ok 8] ∧
    ledgerCalls (journal w') =
      [EvRecordIssuance ssh.HostCert "host.example.com" Sample.key (Ok 7)].
Proof.
  run_as Hsign
    (sign Sample.apiBadDuration "host.example.com"
       (hostPrincipals (conf Sample.apiBadDuration) "host.example.com") 7
       ssh.HostCert Sample.key
       (after (Sample.world [Ok 7; Ok 8]) [Ok 8] tt
          [EvRecordIssuance ssh.HostCert "host.example.com" Sample.key (Ok 7)])).
  assert (readPubkey (Sample.hostRequest (Ok Sample.key)) = Ok Sample.key) as Hkey
    by (vm_compute; reflexivity).
  match type of Hsign with
  | _ = (Done (Err ?err), ?w1) =>
      destruct (ledger_write_is_not_rolled_back Sample.apiBadDuration
                  (Sample.hostRequest (Ok Sample.key)) (Sample.world [Ok 7; Ok 8])
                  Sample.key [Ok 8] 7 err w1 eq_refl Hkey) as [Hhost _]
  end.
  apply (Hhost (Sample.peer ["host.example.com"]) ["host.example.com"] [] []);
    [reflexivity | reflexivity | vm_compute; reflexivity | reflexivity | exact Hsign].
Defined.

(** A ledger that refuses: the sample host gets a 500 and the signer is
    not reached. *)
Lemma ledger_refusal_ends_request_witness :
  ∃ w',
    Enroll Sample.api (Sample.hostRequest (Ok Sample.key))
      (Sample.world [Err "database is locked"]) = (Done tt, w') ∧
    status (response w') = Some StatusInternalServerError ∧
    entropy w' = entropy (Sample.world [Err "database is locked"]) ∧
    noSigning (Sample.world [Err "database is locked"]) w'.
Proof.
  assert (readPubkey (Sample.hostRequest (Ok Sample.key)) = Ok Sample.key) as Hkey
    by (vm_compute; reflexivity).
  destruct (ledger_refusal_ends_request Sample.api (Sample.hostRequest (Ok Sample.key))
              (Sample.world [Err "database is locked"]) Sample.key []
              "database is locked" eq_refl Hkey) as [Hhost _].
  apply (Hhost (Sample.peer ["host.example.com"]) ["host.example.com"] [] []);
    [reflexivity | reflexivity | vm_compute; reflexivity | reflexivity].
Defined.

(** Certificate type 3 on the sample deployment. *)
Lemma unknown_cert_type_is_not_signed_witness :
  ∃ w',
    sign Sample.api "host.example.com" ["host.example.com"] 7 3 Sample.key
      (Sample.world []) = (Done (Err "unknown cert type 3"), w') ∧
    noSigning (Sample.world []) w'.
Proof.
  destruct (unknown_cert_type_is_not_signed Sample.api "host.example.com"
              ["host.example.com"] 7 3 Sample.key (Sample.world []))
    as (err & w' & Hrun & Hquiet & _ & _ & Herr); [discriminate | discriminate |].
  rewrite (Herr tt (replicate 32 Byte.x00) eq_refl) in Hrun.
  exists w'. split; [exact Hrun | exact Hquiet].
Defined.

(** A list with a repeated name and the same names in another order. *)
Lemma extensions_ignore_order_and_repetition_witness :
  getPermissionsForCertType
    (Some {| config.UserCertExtensions :=
               ["permit-pty"; "permit-X11-forwarding"; "permit-pty"] |})
    ssh.UserCert =
  getPermissionsForCertType
    (Some {| config.UserCertExtensions := ["permit-X11-forwarding"; "permit-pty"] |})
    ssh.UserCert ∧
  ∃ m, ssh.Extensions
         (getPermissionsForCertType
            (Some {| config.UserCertExtensions :=
                       ["permit-pty"; "permit-X11-forwarding"; "permit-pty"] |})
            ssh.UserCert) = Some m ∧
       size m = 2%nat.
Proof.
  destruct (extensions_ignore_order_and_repetition
              {| config.UserCertExtensions :=
                   ["permit-pty"; "permit-X11-forwarding"; "permit-pty"] |}
              {| config.UserCertExtensions := ["permit-X11-forwarding"; "permit-pty"] |}
              ssh.UserCert) as [Hsame Hsize].
  { intros k. simpl. rewrite !elem_of_cons, !elem_of_nil. tauto. }
  split; [exact Hsame|].
  destruct (Hsize eq_refl) as (m & Hm & Hcount); [discriminate|].
  exists m. split; [exact Hm|]. rewrite Hcount. vm_compute. reflexivity.
Defined.

(** With [host_cert_duration: -1h] the sample host certificate expires an
    hour before it starts. *)
Lemma validity_window_follows_duration_witness :
  ∃ cert w',
    sign Sample.apiNegativeDuration "host.example.com" ["host.example.com"] 7
      ssh.HostCert Sample.key (Sample.world []) = (Done (Ok cert), w') ∧
    ValidBefore cert < ValidAfter cert.
Proof.
  run_as Hrun (sign Sample.apiNegativeDuration "host.example.com" ["host.example.com"] 7
                 ssh.HostCert Sample.key (Sample.world [])).
  assert (getDurationForCertType (conf Sample.apiNegativeDuration) ssh.HostCert =
            Ok (- (3600 * 1000000000))) as Hd by (vm_compute; reflexivity).
  destruct (validity_window_follows_duration _ _ _ _ _ _ _ _ _ _ Hrun Hd)
    as (_ & _ & _ & Hreversed).
  - unfold representable. vm_compute. split; [discriminate | reflexivity].
  - unfold representable. vm_compute. split; [discriminate | reflexivity].
  - eexists _, _. split; [exact Hrun|]. apply Hreversed. lia.
Defined.

(** ** Edges of the suffix rule *)
Section SuffixEdges.

Lemma string_app_nil_r (s : string) : s +:+ EmptyString = s.
Proof. induction s as [|a s IH]; [reflexivity|]. rewrite app_cons. now rewrite IH. Qed.

(** X12. Two edges of the suffix rule of [signHost]. An empty
    [strip_suffix] switches the rule off, although every hostname ends
    with the empty string: the principals are the hostname and its
    aliases. A hostname that is the configured suffix itself is stripped
    to nothing: the empty string becomes its second principal. *)
Theorem strip_suffix_edges (cfg : config.Config) (h : string) :
  (config.StripSuffix cfg = EmptyString →
     strings.HasSuffix h (config.StripSuffix cfg) = true ∧
     hostPrincipals cfg h = h :: default [] (config.Aliases cfg !! h)) ∧
  (config.StripSuffix cfg = h → h ≠ EmptyString →
     hostPrincipals cfg h = h :: EmptyString :: default [] (config.Aliases cfg !! h)).
Proof.
  split.
  - intros Hempty. split.
    + apply HasSuffix_true. exists h. rewrite Hempty. symmetry. apply string_app_nil_r.
    + unfold hostPrincipals. rewrite Hempty. simpl.
      now destruct (config.Aliases cfg !! h).
  - intros Hsuffix Hne. unfold hostPrincipals. rewrite Hsuffix.
    rewrite bool_decide_eq_false_2 by assumption.
    assert (strings.HasSuffix h h = true) as ->
      by (apply HasSuffix_true; now exists EmptyString).
    assert (strings.TrimSuffix h h = EmptyString) as ->
      by (apply (TrimSuffix_app EmptyString h)).
    simpl. now destruct (config.Aliases cfg !! h).
Qed.

End SuffixEdges.

(** A host named like the sample suffix, and the sample host with the
    suffix rule switched off. *)
Lemma strip_suffix_edges_witness :
  hostPrincipals Sample.configuration ".example.com" = [".example.com"; EmptyString] ∧
  hostPrincipals
    {| config.HostCertDuration := "168h"; config.UserCertDuration := "24h";
       config.StripSuffix := EmptyString;
       config.Aliases := config.Aliases Sample.configuration;
       config.AuthenticatingProxy_ := None;
       config.SSH_ := config.SSH_ Sample.configuration |}
    "host.example.com" = ["host.example.com"; "a.example.com"; "b.example.com"].
Proof.
  split.
  - destruct (strip_suffix_edges Sample.configuration ".example.com") as [_ Hself].
    rewrite (Hself eq_refl) by discriminate. vm_compute. reflexivity.
  - destruct (strip_suffix_edges
                {| config.HostCertDuration := "168h"; config.UserCertDuration := "24h";
                   config.StripSuffix := EmptyString;
                   config.Aliases := config.Aliases Sample.configuration;
                   config.AuthenticatingProxy_ := None;
                   config.SSH_ := config.SSH_ Sample.configuration |}
                "host.example.com") as [Hoff _].
    destruct (Hoff eq_refl) as [_ ->]. vm_compute. reflexivity.
Defined.
